(** * EcoTrack: the gamification engine, polyline decoding, distance
      resolution and the action submission flow

    A shallow embedding of the TypeScript sources

      - [src/lib/gamification.ts]  (levels, streaks, totals, badges,
                                    statistics),
      - [src/lib/directions.ts]    (route lookup with Haversine fallback,
                                    polyline decoding),
      - [app/(tabs)/tracker.tsx]   (the [logAction] submission flow, the
                                    rows of the history),
      - [src/lib/config.ts], [src/lib/agentClient.ts] (the agent's URL),
      - [app/(tabs)/leaderboard.tsx], [app/lib/geo.ts],
        [app/modals/VegetarianModal.tsx],

    followed by the properties proved about them.

    Conventions of the embedding.

    - A JavaScript [number] is a value of [Num.number]: [NaN], the two
      infinities, or a finite value carried as an exact rational.  The
      special values follow IEEE-754 as JavaScript exposes it; rounding
      of finite results, overflow and the sign of zero are not modelled.
      A statement that needs a finite result to be exact says for which
      values it is ([Num.binary64], or a bound).
    - A field that may be absent from an object is an [option]; values
      whose run-time type is not known statically (JSON coming from a
      remote service) are of type [Json.value].
    - Effects are explicit: the clock, the network, the remote agent and
      the database appear as inputs and as a world that is threaded
      through the computation. *)

From Stdlib Require Import ZArith QArith Qround Qcanon Ascii String Bool Lia Lqa.
From stdpp Require Import base list sorting.

Local Open Scope Z_scope.

#[local] Set Warnings "-register-all".

(** ** JavaScript numbers *)

Module Num.

Inductive number : Type :=
| NaN
| Infinity (negative : bool)
| Fin (q : Q).

Definition of_Z (z : Z) : number := Fin (inject_Z z).

Definition zero : number := of_Z 0.
Definition one : number := of_Z 1.

(** [Number.isFinite]. *)
Definition isFinite (x : number) : bool :=
  match x with Fin _ => true | _ => false end.

Definition isNaN (x : number) : bool :=
  match x with NaN => true | _ => false end.

(** Sign of a rational, as a comparison with zero. *)
Definition Qsign (q : Q) : comparison := (q ?= 0)%Q.

(** [x + y]; the sum of two finite values is exact here. *)
Definition add (x y : number) : number :=
  match x, y with
  | NaN, _ | _, NaN => NaN
  | Infinity s, Infinity s' => if Bool.eqb s s' then Infinity s else NaN
  | Infinity s, Fin _ | Fin _, Infinity s => Infinity s
  | Fin a, Fin b => Fin (Qred (a + b))
  end.

(** [- x]. *)
Definition opp (x : number) : number :=
  match x with
  | NaN => NaN
  | Infinity s => Infinity (negb s)
  | Fin q => Fin (Qred (- q))
  end.

(** [x - y]. *)
Definition sub (x y : number) : number := add x (opp y).

(** [x * y]; the product of two finite values is exact here. *)
Definition mul (x y : number) : number :=
  match x, y with
  | NaN, _ | _, NaN => NaN
  | Infinity s, Infinity s' => Infinity (xorb s s')
  | Infinity s, Fin q | Fin q, Infinity s =>
      match Qsign q with
      | Eq => NaN
      | Gt => Infinity s
      | Lt => Infinity (negb s)
      end
  | Fin a, Fin b => Fin (Qred (a * b))
  end.

(** [x / y]; the quotient of two finite values is exact here. *)
Definition div (x y : number) : number :=
  match x, y with
  | NaN, _ | _, NaN => NaN
  | Infinity _, Infinity _ => NaN
  | Infinity s, Fin q =>
      match Qsign q with Lt => Infinity (negb s) | _ => Infinity s end
  | Fin _, Infinity _ => zero
  | Fin a, Fin b =>
      match Qsign b with
      | Eq => match Qsign a with
              | Eq => NaN
              | Gt => Infinity false
              | Lt => Infinity true
              end
      | _ => Fin (Qred (a / b))
      end
  end.

(** [Math.floor]. *)
Definition floor (x : number) : number :=
  match x with
  | Fin q => of_Z (Qfloor q)
  | _ => x
  end.

(** [x >= y]; every comparison with [NaN] is false. *)
Definition geb (x y : number) : bool :=
  match x, y with
  | NaN, _ | _, NaN => false
  | Infinity s, Infinity s' => implb s s'
  | Infinity s, Fin _ => negb s
  | Fin _, Infinity s => s
  | Fin a, Fin b => Qle_bool b a
  end.

(** [x <= y]. *)
Definition leb (x y : number) : bool := geb y x.

(** Truthiness of a number: [0] and [NaN] are falsy. *)
Definition truthy (x : number) : bool :=
  match x with
  | NaN => false
  | Infinity _ => true
  | Fin q => negb (Qeq_bool q 0)
  end.

(** A rational that a binary64 number holds exactly: [m * 2 ^ e] for
    integers with [|m| < 2 ^ 53] and [-1074 <= e <= 971].  An
    operation of the run-time whose exact result is such a rational
    returns that result, without rounding. *)
Definition binary64 (q : Q) : Prop :=
  ∃ m e : Z, (Z.abs m < 2 ^ 53)%Z ∧ (-1074 <= e <= 971)%Z ∧
             (q == inject_Z m * 2 ^ e)%Q.

End Num.

Export Num.

Declare Scope num_scope.
Delimit Scope num_scope with num.
Bind Scope num_scope with number.
Infix "+" := Num.add : num_scope.
Infix "-" := Num.sub : num_scope.
Infix "*" := Num.mul : num_scope.
Infix "/" := Num.div : num_scope.
Infix ">=?" := Num.geb (at level 70) : num_scope.
Infix "<=?" := Num.leb (at level 70) : num_scope.

(** ** [src/lib/gamification.ts] *)

Module Gamification.

(** [interface EcoActionRecord]: an action as stored in the database.
    The records are read back with an unchecked cast, so each of the two
    CO2 fields may be absent ([None]) here, although only [co2_saved_lb]
    is declared optional; a field that is present holds a number, as
    declared. *)
Record EcoActionRecord : Type := mkAction {
  action : string;
  distance_km : option number;
  distance_mi : option number;
  co2_saved_kg : option number;
  co2_saved_lb : option number;
  message : string;
  ts : Z
}.

(** [interface Badge]. *)
Record Badge : Type := mkBadge {
  id : string;
  name : string;
  description : string;
  icon : string;
  threshold : number;
  earned : bool
}.

(** [Omit<Badge, "earned">]. *)
Record BadgeDefinition : Type := mkBadgeDefinition {
  def_id : string;
  def_name : string;
  def_description : string;
  def_icon : string;
  def_threshold : number
}.

Definition KG_TO_LB : number := Fin 2.20462.

(** [a.co2_saved_kg || 0]. *)
Definition kg_or_zero (kg : option number) : number :=
  match kg with
  | Some n => if Num.truthy n then n else Num.zero
  | None => Num.zero
  end.

(** [typeof a.co2_saved_lb === "number" ? a.co2_saved_lb
      : (a.co2_saved_kg || 0) * KG_TO_LB]. *)
Definition actionCo2Lb (a : EcoActionRecord) : number :=
  match co2_saved_lb a with
  | Some lb => lb
  | None => (kg_or_zero (co2_saved_kg a) * KG_TO_LB)%num
  end.

Definition BADGE_DEFINITIONS : list BadgeDefinition :=
  [ mkBadgeDefinition "starter" "Eco Starter"
      "Save your first 1 lb of CO₂" "🌱" (Num.of_Z 1);
    mkBadgeDefinition "committed" "Eco Committed"
      "Save 5 lb of CO₂" "🌿" (Num.of_Z 5);
    mkBadgeDefinition "champion" "Eco Champion"
      "Save 10 lb of CO₂" "🏆" (Num.of_Z 10);
    mkBadgeDefinition "hero" "Eco Hero"
      "Save 25 lb of CO₂" "⭐" (Num.of_Z 25);
    mkBadgeDefinition "legend" "Eco Legend"
      "Save 50 lb of CO₂" "👑" (Num.of_Z 50);
    mkBadgeDefinition "guardian" "Planet Guardian"
      "Save 100 lb of CO₂" "🌍" (Num.of_Z 100) ].

(** [Math.floor(totalCo2Saved / 5) + 1]. *)
Definition calculateLevel (totalCo2Saved : number) : number :=
  (Num.floor (totalCo2Saved / Num.of_Z 5) + Num.one)%num.

(** [Array.prototype.reduce] with an initial value: the accumulator
    runs over the elements from the first to the last. *)
Definition reduce {A B : Type} (f : B -> A -> B) (init : B) (l : list A) : B :=
  fold_left f l init.

(** [actions.reduce((sum, action) => sum + actionCo2Lb(action), 0)]. *)
Definition calculateTotalCo2 (actions : list EcoActionRecord) : number :=
  reduce (fun sum action => (sum + actionCo2Lb action)%num) Num.zero actions.

(** [{ ...badge, earned: totalCo2Saved >= badge.threshold }]. *)
Definition with_earned (totalCo2Saved : number) (badge : BadgeDefinition) : Badge :=
  {| id := def_id badge;
     name := def_name badge;
     description := def_description badge;
     icon := def_icon badge;
     threshold := def_threshold badge;
     earned := (totalCo2Saved >=? def_threshold badge)%num |}.

(** [BADGE_DEFINITIONS.map(...)]. *)
Definition calculateBadges (totalCo2Saved : number) : list Badge :=
  map (with_earned totalCo2Saved) BADGE_DEFINITIONS.

(** *** The words of the specification, for comparison with the code *)

(** The reconciliation as the specification words it: the pounds field
    when it is a finite number, otherwise the kilograms field, a missing
    or not-a-number one counting as zero, times 2.20462. *)
Definition actionCo2Lb_spec (a : EcoActionRecord) : number :=
  match co2_saved_lb a with
  | Some (Fin lb) => Fin lb
  | _ =>
      (match co2_saved_kg a with
       | None | Some NaN => Num.zero
       | Some kg => kg
       end * KG_TO_LB)%num
  end.

(** The record [a] with another kilograms field. *)
Definition with_kg (kg : option number) (a : EcoActionRecord) : EcoActionRecord :=
  {| action := action a; distance_km := distance_km a;
     distance_mi := distance_mi a; co2_saved_kg := kg;
     co2_saved_lb := co2_saved_lb a; message := message a; ts := ts a |}.

(** The sum of the first [n] reconciled values of a history, in the
    order of the history. *)
Fixpoint partial_sum (actions : list EcoActionRecord) (n : nat) : number :=
  match n with
  | O => Num.zero
  | S k =>
      (partial_sum actions k +
       match actions !! k with
       | Some a => actionCo2Lb a
       | None => Num.zero
       end)%num
  end.

(** The exact sum of finitely many rationals. *)
Definition Qsum (qs : list Q) : Q := fold_right Qplus 0%Q qs.

(** The definition that a badge was built from: the badge without its
    [earned] flag. *)
Definition definition_of (b : Badge) : BadgeDefinition :=
  {| def_id := id b; def_name := name b; def_description := description b;
     def_icon := icon b; def_threshold := threshold b |}.

(** The names of the badges that are earned, in the order of the list. *)
Definition earned_names (badges : list Badge) : list string :=
  map name (filter (λ b, earned b = true) badges).

End Gamification.

(** ** Local calendar days and the streak *)

Module Streak.
Import Gamification.

(** [(a, b) => b.ts - a.ts]: the record [a] may stand before [b] when
    the comparator is not positive. *)
Definition by_ts_desc (a b : EcoActionRecord) : Prop := ts b <= ts a.

#[export] Instance by_ts_desc_dec : RelDecision by_ts_desc.
Proof. intros a b. unfold by_ts_desc. apply _. Defined.

Section Calendar.

(** [dayjs(t).utcOffset()]: the offset of the device's time zone at the
    instant [t], in minutes east of UTC.  It may vary with [t]
    (daylight saving time). *)
Variable utcOffset : Z -> Z.

(** [dayjs(day).valueOf()] for the string of the calendar day [day]:
    the instant that the local [Date] constructor gives for 00:00 of
    that day.  Where a change of the clocks skips that time of the
    local clock, it is a later time of the same day. *)
Variable localMidnight : Z -> Z.

Definition MILLISECONDS_A_MINUTE : Z := 60000.
Definition MILLISECONDS_A_DAY : Z := 86400000.

(** [dayjs(ts).format("YYYY-MM-DD")]: the local calendar day of the
    instant [ts].  A day is represented by its number on the local
    calendar (the days elapsed since 1970-01-01), not by the string: for
    the four-digit years that [Date.now()] produces, two such strings
    are equal exactly when the day numbers are, and they are ordered as
    the day numbers are. *)
Definition dayKey (ts : Z) : Z :=
  (ts + utcOffset ts * MILLISECONDS_A_MINUTE) `div` MILLISECONDS_A_DAY.

(** [d.subtract(1, "day")] on a calendar day. *)
Definition subtract_day (day : Z) : Z := day - 1.

(** [dayjs(a).diff(dayjs(b), "day")] for the strings of two calendar
    days: the difference of the two instants, less the difference of
    their UTC offsets, in whole days, rounded towards zero. *)
Definition diff_days (a b : Z) : Z :=
  let this := localMidnight a in
  let that := localMidnight b in
  let zoneDelta := (utcOffset that - utcOffset this) * MILLISECONDS_A_MINUTE in
  let diff := this - that in
  (diff - zoneDelta) `quot` MILLISECONDS_A_DAY.

(** The local clock reads 00:00 of [day] at the instant
    [localMidnight day].  This fails for a day whose midnight a change
    of the clocks skips, and for a day whose string [dayjs] does not
    read back as that day. *)
Definition starts_at_midnight (day : Z) : Prop :=
  localMidnight day + utcOffset (localMidnight day) * MILLISECONDS_A_MINUTE =
  day * MILLISECONDS_A_DAY.

(** The days from 0000-01-01 to 9999-12-31: their strings have a year
    of four digits, and are ordered as the days are. *)
Definition four_digit_year (day : Z) : Prop := -719528 <= day <= 2932896.

(** A history of plain days: each record is of a day with a year of
    four digits that starts at midnight on the local clock. *)
Definition plain_days (actions : list EcoActionRecord) : Prop :=
  ∀ a, a ∈ actions →
       four_digit_year (dayKey (ts a)) ∧ starts_at_midnight (dayKey (ts a)).

(** [Set.prototype.add]: a set keeps its elements in insertion order
    and ignores an element it already holds. *)
Definition set_add (day : Z) (s : list Z) : list Z :=
  if decide (day ∈ s) then s else s ++ [day].

(** [sortedActions.forEach(action => activeDays.add(dayKey(action.ts)))]. *)
Definition collect_days (sortedActions : list EcoActionRecord) : list Z :=
  fold_left (fun activeDays a => set_add (dayKey (ts a)) activeDays)
            sortedActions [].

(** The loop [for (let i = 1; i < sortedDays.length; i++)]: [days] are
    the entries from index [i] on. *)
Fixpoint count_consecutive (currentDay : Z) (days : list Z) (streak : Z) : Z :=
  match days with
  | [] => streak
  | previousDay :: rest =>
      if diff_days currentDay previousDay =? 1
      then count_consecutive previousDay rest (streak + 1)
      else streak
  end.

(** [calculateStreak(actions)], evaluated when the clock reads [now].
    [Array.prototype.sort] is a merge sort here; all that the function
    uses of it is that the result is sorted and holds the same
    elements.  The code sorts the strings of the days; here the days
    are sorted as numbers, which is the same order as long as the years
    have four digits ([four_digit_year]). *)
Definition calculateStreak (now : Z) (actions : list EcoActionRecord) : Z :=
  if (length actions =? 0)%nat then 0 else
  let sortedActions := merge_sort by_ts_desc actions in
  let activeDays := collect_days sortedActions in
  let sortedDays := reverse (merge_sort Z.le activeDays) in
  match sortedDays with
  | [] => 0
  | first :: rest =>
      let today := dayKey now in
      let yesterday := subtract_day (dayKey now) in
      if negb (first =? today) && negb (first =? yesterday)
      then 0
      else count_consecutive first rest 1
  end.

(** The list [sortedDays] that [calculateStreak] builds. *)
Definition sortedDays (actions : list EcoActionRecord) : list Z :=
  reverse (merge_sort Z.le (collect_days (merge_sort by_ts_desc actions))).

End Calendar.

(** The words of the specification, for comparison with the code. *)
Section Specification.

Variable utcOffset : Z -> Z.

(** A day is active when the history holds a record of that day. *)
Definition active (actions : list EcoActionRecord) (day : Z) : Prop :=
  ∃ a, a ∈ actions ∧ dayKey utcOffset (ts a) = day.

(** The most recent active day. *)
Definition most_recent (actions : list EcoActionRecord) (day : Z) : Prop :=
  active actions day ∧ ∀ d, active actions d → d <= day.

(** The contiguous run of [n] active days that ends at [day]: the days
    [day], [day - 1], ..., [day - (n - 1)] are active and [day - n] is
    not. *)
Definition contiguous_run (actions : list EcoActionRecord) (day n : Z) : Prop :=
  1 <= n ∧ (∀ i, 0 <= i < n → active actions (day - i)) ∧
  ¬ active actions (day - n).

(** What the specification says of the streak [s] of a history at the
    instant [now]. *)
Definition streak_spec (now : Z) (actions : list EcoActionRecord) (s : Z) : Prop :=
  ((∀ d, ¬ active actions d) → s = 0) ∧
  (∀ m, most_recent actions m →
        let today := dayKey utcOffset now in
        let yesterday := today - 1 in
        (m ≠ today → m ≠ yesterday → s = 0) ∧
        (m = today ∨ m = yesterday → contiguous_run actions m s)).

End Specification.

(** Days in strictly decreasing order. *)
Definition descending : list Z → Prop := StronglySorted (flip Z.lt).

End Streak.

(** ** Values of unknown run-time type *)

(** The built-in functions of the JavaScript run-time that the sources
    call and that this development leaves uninterpreted. *)
Class Runtime : Type := {
  (** [Number(s)] on a string. *)
  StringToNumber : string -> number;
  (** [String(n)] on a number, as in a template literal. *)
  NumberToString : number -> string;
  Math_PI : number;
  Math_sin : number -> number;
  Math_cos : number -> number;
  Math_sqrt : number -> number;
  Math_atan2 : number -> number -> number
}.

Module Json.

(** A value as [JSON.parse] produces it, and [undefined]. *)
Inductive value : Type :=
| VUndefined
| VNull
| VBool (b : bool)
| VNum (n : number)
| VStr (s : string)
| VArr (items : list value)
| VObj (fields : list (string * value)).

(** What a failing computation throws. *)
Inductive exn : Type :=
| TypeError (msg : string)
| Error (msg : string)
| Rejected (reason : value).

(** A computation that returns or throws. *)
Definition result (A : Type) : Type := exn + A.

Definition ok {A : Type} (x : A) : result A := inr x.
Definition throw {A : Type} (e : exn) : result A := inl e.

Definition and_then {A B : Type} (r : result A) (k : A -> result B) : result B :=
  match r with
  | inl e => inl e
  | inr x => k x
  end.

(** Truthiness, as [!v] and [v || w] test it. *)
Definition truthy (v : value) : bool :=
  match v with
  | VUndefined | VNull => false
  | VBool b => b
  | VNum n => Num.truthy n
  | VStr s => negb (String.eqb s "")
  | VArr _ | VObj _ => true
  end.

(** [v == null]: the test of optional chaining [v?.p]. *)
Definition nullish (v : value) : bool :=
  match v with
  | VUndefined | VNull => true
  | _ => false
  end.

(** [v || w]. *)
Definition or_else (v w : value) : value := if truthy v then v else w.

Fixpoint lookup_field (key : string) (fields : list (string * value)) : value :=
  match fields with
  | [] => VUndefined
  | (k, v) :: rest => if String.eqb k key then v else lookup_field key rest
  end.

(** [v.key] for the property names that the sources read, none of which
    is inherited from a prototype: reading a property of [undefined] or
    [null] throws; a missing property reads as [undefined]. *)
Definition get (v : value) (key : string) : result value :=
  match v with
  | VUndefined | VNull => throw (TypeError "Cannot read properties of undefined")
  | VObj fields => ok (lookup_field key fields)
  | VArr items =>
      if String.eqb key "length"
      then ok (VNum (Num.of_Z (Z.of_nat (length items))))
      else ok VUndefined
  | VStr s =>
      if String.eqb key "length"
      then ok (VNum (Num.of_Z (Z.of_nat (String.length s))))
      else ok VUndefined
  | VBool _ | VNum _ => ok VUndefined
  end.

(** [v?.key]. *)
Definition get_optional (v : value) (key : string) : result value :=
  if nullish v then ok VUndefined else get v key.

(** [v[0]]. *)
Definition get_first (v : value) : result value :=
  match v with
  | VUndefined | VNull => throw (TypeError "Cannot read properties of undefined")
  | VObj fields => ok (lookup_field "0" fields)
  | VArr items => ok (match items with x :: _ => x | [] => VUndefined end)
  | VStr s => ok (match s with
                  | String c _ => VStr (String c EmptyString)
                  | EmptyString => VUndefined
                  end)
  | VBool _ | VNum _ => ok VUndefined
  end.

(** The values that [for (const x of v)] visits: the elements of an
    array, the characters of a string; anything else is not iterable. *)
Definition iterate (v : value) : result (list value) :=
  match v with
  | VArr items => ok items
  | VStr s => ok (map (fun c => VStr (String c EmptyString)) (list_ascii_of_string s))
  | _ => throw (TypeError "not iterable")
  end.

(** [v === s] for a string [s]. *)
Definition is_string (v : value) (s : string) : bool :=
  match v with
  | VStr s' => String.eqb s' s
  | _ => false
  end.

(** [v === 0]. *)
Definition is_zero (v : value) : bool :=
  match v with
  | VNum (Fin q) => Qeq_bool q 0
  | _ => false
  end.

Section Conversions.

Context `{Runtime}.

(** [String(v)]. *)
Fixpoint ToString (v : value) : string :=
  match v with
  | VUndefined => "undefined"
  | VNull => "null"
  | VBool true => "true"
  | VBool false => "false"
  | VNum n => NumberToString n
  | VStr s => s
  | VArr items =>
      String.concat ","
        (List.map (fun x => if nullish x then ""%string else ToString x) items)
  | VObj _ => "[object Object]"
  end.

(** [Number(v)]. *)
Definition ToNumber (v : value) : number :=
  match v with
  | VUndefined => NaN
  | VNull => Num.zero
  | VBool true => Num.one
  | VBool false => Num.zero
  | VNum n => n
  | VStr s => StringToNumber s
  | VArr _ | VObj _ => StringToNumber (ToString v)
  end.

(** [v + w]: concatenation as soon as one operand is a string, an array
    or an object, the sum of the numbers otherwise. *)
Definition plus (v w : value) : value :=
  match v, w with
  | (VStr _ | VArr _ | VObj _), _ | _, (VStr _ | VArr _ | VObj _) =>
      VStr (ToString v ++ ToString w)
  | _, _ => VNum (ToNumber v + ToNumber w)
  end.

End Conversions.

End Json.

(** ** Computations with effects *)

Module Eff.
Import Json.

(** A computation over a world [W]: it returns or throws, and in both
    cases leaves a world behind; what was done before a [throw] stays
    done. *)
Definition M (W A : Type) : Type := W -> result A * W.

Definition ret {W A : Type} (x : A) : M W A := fun w => (inr x, w).

Definition bind {W A B : Type} (m : M W A) (k : A -> M W B) : M W B :=
  fun w => match m w with
           | (inr x, w') => k x w'
           | (inl e, w') => (inl e, w')
           end.

Definition raise {W A : Type} (e : exn) : M W A := fun w => (inl e, w).

Definition lift {W A : Type} (r : result A) : M W A := fun w => (r, w).

(** [try { m } catch (e) { handler(e) }]. *)
Definition try_catch {W A : Type} (m : M W A) (handler : exn -> M W A) : M W A :=
  fun w => match m w with
           | (inr x, w') => (inr x, w')
           | (inl e, w') => handler e w'
           end.

(** [try { m } finally { cleanup }], for a [cleanup] that does not throw. *)
Definition finally {W A : Type} (m : M W A) (cleanup : W -> W) : M W A :=
  fun w => let '(r, w') := m w in (r, cleanup w').

(** An effect on the world that returns nothing. *)
Definition effect {W : Type} (f : W -> W) : M W unit := fun w => (inr tt, f w).

End Eff.

Declare Scope eff_scope.
Delimit Scope eff_scope with eff.
Notation "'let*' x ':=' m 'in' k" := (Eff.bind m (fun x => k))
  (at level 10, x name, m at level 100, k at level 200) : eff_scope.
Notation "'do' m 'in' k" := (Eff.bind m (fun _ => k))
  (at level 10, m at level 100, k at level 200) : eff_scope.
Notation "'let?' x ':=' r 'in' k" := (Json.and_then r (fun x => k))
  (at level 10, x name, r at level 100, k at level 200) : eff_scope.

(** ** [src/lib/directions.ts] *)

Module Directions.
Import Json Eff.

Local Open Scope string_scope.
Local Open Scope eff_scope.

Record Coordinate : Type := mkCoordinate {
  latitude : number;
  longitude : number
}.

(** [interface RouteResult]; a [duration_s] that is absent reads as
    [undefined]. *)
Record RouteResult : Type := mkRouteResult {
  distance_mi : number;
  polyline : value;
  duration_s : value
}.

Inductive TravelMode : Type := walking | bicycling.

Definition mode_string (mode : TravelMode) : string :=
  match mode with
  | walking => "walking"
  | bicycling => "bicycling"
  end.

(** What the network does with a request: [fetch] rejects, or it
    resolves to a response whose body [response.json()] parses
    ([Some]) or rejects ([None]). *)
Inductive FetchOutcome : Type :=
| NetworkError (reason : value)
| Response (body : option value).

(** The network: the outcome of fetching a URL. *)
Definition Network : Type := string -> FetchOutcome.

(** The world of [fetchRoute]: the URLs that were fetched, oldest first. *)
Definition Requests : Type := list string.

Section WithRuntime.

Context `{Runtime}.

(** [haversineDistance(from, to)], in miles. *)
Definition haversineDistance (from to : Coordinate) : number :=
  let R := Fin 6371000 in
  let φ1 := (latitude from * Math_PI / Num.of_Z 180)%num in
  let φ2 := (latitude to * Math_PI / Num.of_Z 180)%num in
  let Δφ := ((latitude to - latitude from) * Math_PI / Num.of_Z 180)%num in
  let Δλ := ((longitude to - longitude from) * Math_PI / Num.of_Z 180)%num in
  let a :=
    (Math_sin (Δφ / Num.of_Z 2) * Math_sin (Δφ / Num.of_Z 2) +
     Math_cos φ1 * Math_cos φ2 *
       Math_sin (Δλ / Num.of_Z 2) * Math_sin (Δλ / Num.of_Z 2))%num in
  let c :=
    (Num.of_Z 2 *
     Math_atan2 (Math_sqrt a) (Math_sqrt (Num.one - a)))%num in
  let meters := (R * c)%num in
  let km := (meters / Num.of_Z 1000)%num in
  (km * Fin 0.621371)%num.

(** The result of the fallback: the straight-line distance and no
    polyline. *)
Definition straight_line (origin destination : Coordinate) : RouteResult :=
  {| distance_mi := haversineDistance origin destination;
     polyline := VStr "";
     duration_s := VUndefined |}.

Definition directions_url (key : string) (origin destination : Coordinate)
    (mode : TravelMode) : string :=
  let originStr :=
    NumberToString (latitude origin) ++ "," ++ NumberToString (longitude origin) in
  let destStr :=
    NumberToString (latitude destination) ++ "," ++
    NumberToString (longitude destination) in
  "https://maps.googleapis.com/maps/api/directions/json?origin=" ++ originStr ++
  "&destination=" ++ destStr ++ "&mode=" ++ mode_string mode ++ "&key=" ++ key.

(** [const response = await fetch(url); const data = await response.json()]. *)
Definition fetch_json (net : Network) (url : string) : M Requests value :=
  do effect (fun requests => (requests ++ [url])%list) in
  match net url with
  | NetworkError reason => raise (Rejected reason)
  | Response None => raise (Error "JSON Parse error")
  | Response (Some data) => ret data
  end.

(** [for (const legItem of route.legs) totalMeters += legItem.distance.value]. *)
Fixpoint sum_legs (legs : list value) (totalMeters : value) : result value :=
  match legs with
  | [] => ok totalMeters
  | legItem :: rest =>
      let? distance := get legItem "distance" in
      let? meters := get distance "value" in
      sum_legs rest (plus totalMeters meters)
  end.

(** The body of the [try] block from the test of [data.status] on. *)
Definition route_of_data (data : value) : result RouteResult :=
  let? status := get data "status" in
  if negb (is_string status "OK")
  then (let? _ := get data "error_message" in
        throw (Error ("Directions API: " ++ ToString status)))
  else
  let? routes := get data "routes" in
  if negb (truthy routes) then throw (Error "No routes found") else
  let? n := get routes "length" in
  if is_zero n then throw (Error "No routes found") else
  let? route := get_first routes in
  let? legs := get route "legs" in
  let? leg := get_first legs in
  let? legItems := iterate legs in
  let? totalMeters := sum_legs legItems (VNum Num.zero) in
  let km := (ToNumber totalMeters / Num.of_Z 1000)%num in
  let distance_mi := (km * Fin 0.621371)%num in
  let? overview_polyline := get route "overview_polyline" in
  let? points := get overview_polyline "points" in
  let? duration := get leg "duration" in
  let? duration_value := get_optional duration "value" in
  ok {| distance_mi := distance_mi;
        polyline := points;
        duration_s := duration_value |}.

(** [fetchRoute(origin, destination, mode)], with the configured
    [GOOGLE_MAPS_API_KEY] and the network as inputs. *)
Definition fetchRoute (GOOGLE_MAPS_API_KEY : string) (net : Network)
    (origin destination : Coordinate) (mode : TravelMode) : M Requests RouteResult :=
  if negb (truthy (VStr GOOGLE_MAPS_API_KEY))
  then ret (straight_line origin destination)
  else
    try_catch
      (let url := directions_url GOOGLE_MAPS_API_KEY origin destination mode in
       let* data := fetch_json net url in
       lift (route_of_data data))
      (fun error => ret (straight_line origin destination)).


End WithRuntime.

(** *** Polyline decoding *)

(** [ToInt32]: the operands and the results of the bit operators are
    32-bit integers in two's complement. *)
Definition ToInt32 (z : Z) : Z := (z + 2 ^ 31) `mod` 2 ^ 32 - 2 ^ 31.

(** [a << shift]: only the low five bits of the shift count are used. *)
Definition shl (a shift : Z) : Z :=
  ToInt32 (Z.shiftl (ToInt32 a) (Z.land shift 31)).

(** [a | b]. *)
Definition bor (a b : Z) : Z := ToInt32 (Z.lor (ToInt32 a) (ToInt32 b)).

(** [a & b]. *)
Definition band (a b : Z) : Z := ToInt32 (Z.land (ToInt32 a) (ToInt32 b)).

(** [a >> 1]. *)
Definition sar1 (a : Z) : Z := Z.shiftr (ToInt32 a) 1.

(** [~a]. *)
Definition bnot (a : Z) : Z := Z.lnot (ToInt32 a).

(** The code units of a string, one per character, as [charCodeAt]
    reads them.  A string is a list of bytes here: this is the list of
    the UTF-16 code units for the strings of characters up to U+00FF
    held one per byte, which covers the ASCII characters that a
    polyline consists of. *)
Definition code_units (s : string) : list Z :=
  map (fun c => Z.of_N (N_of_ascii c)) (list_ascii_of_string s).

(** The loop
    [do { b = encoded.charCodeAt(index++) - 63;
          result |= (b & 0x1f) << shift; shift += 5; } while (b >= 0x20)]
    on the code units from [index] on; it returns [result] and the code
    units that are left.  Past the end of the string [charCodeAt] is
    [NaN]: then [b & 0x1f] is [0] and [b >= 0x20] is false. *)
Fixpoint read_group (units : list Z) (shift result : Z) : Z * list Z :=
  match units with
  | [] => (bor result (shl 0 shift), [])
  | c :: rest =>
      let b := c - 63 in
      let result := bor result (shl (band b 31) shift) in
      if (32 <=? b)%Z then read_group rest (shift + 5) result else (result, rest)
  end.

(** [(result & 1) !== 0 ? ~(result >> 1) : result >> 1]. *)
Definition delta (result : Z) : Z :=
  if negb (band result 1 =? 0)%Z then bnot (sar1 result) else sar1 result.

(** The loop [while (index < encoded.length)], on the code units from
    [index] on.  Each turn costs one unit of [fuel]; [None] when the
    fuel runs out first. *)
Fixpoint decode_loop (fuel : nat) (units : list Z) (lat lng : Z)
    (coordinates : list Coordinate) : option (list Coordinate) :=
  match units with
  | [] => Some coordinates
  | _ :: _ =>
      match fuel with
      | O => None
      | S fuel' =>
          let '(result, units) := read_group units 0 0 in
          let dlat := delta result in
          let lat := lat + dlat in
          let '(result, units) := read_group units 0 0 in
          let dlng := delta result in
          let lng := lng + dlng in
          decode_loop fuel' units lat lng
            (coordinates ++
             [ {| latitude := (Num.of_Z lat / Num.of_Z 100000)%num;
                  longitude := (Num.of_Z lng / Num.of_Z 100000)%num |} ])
      end
  end.

(** [decodePolyline] on the code units of the string, with a given
    amount of fuel. *)
Definition decode_units (fuel : nat) (units : list Z) : option (list Coordinate) :=
  match units with
  | [] => Some []
  | _ => decode_loop fuel units 0 0 []
  end.

(** [decodePolyline(encoded)]: one turn of the loop per character is
    enough fuel. *)
Definition decodePolyline (encoded : string) : option (list Coordinate) :=
  decode_units (String.length encoded) (code_units encoded).

End Directions.

(** ** [app/(tabs)/tracker.tsx]: the submission flow *)

Module Tracker.
Import Json Eff.

Local Open Scope string_scope.
Local Open Scope eff_scope.

Definition KG_TO_LB : number := Fin 2.20462.

Inductive ActionType : Type := bike | walk | recycled | vegetarian.

(** The request that [logAction] hands to [getCo2Savings]. *)
Record Co2SavingsRequest : Type := mkRequest {
  user_id : string;
  req_action : string;
  req_distance_mi : number
}.

(** The object that [logAction] hands to [push]. *)
Record StoredAction : Type := mkStored {
  action : string;
  distance_mi : number;
  co2_saved_kg : number;
  co2_saved_lb : number;
  message : value;
  agent_engine : value;
  ts : Z
}.

(** The estimation collaborator, [getCo2Savings], for a call that
    settles: it throws, or returns the body of the agent's response as
    it was parsed, unvalidated. *)
Definition Agent : Type := Co2SavingsRequest -> result value.

(** The persistence collaborator, for a write that settles: whether
    [push] of a record at a path resolves ([true]) or rejects
    ([false]).  A write that stays pending, which the awaited [push]
    allows, is not modelled. *)
Definition Database : Type := string -> StoredAction -> bool.

(** The world of the tracker screen: the records that were pushed, with
    their paths, oldest first; the [loading] flag; the titles of the
    alerts that were shown; the requests that were sent to the agent;
    the number of times the statistics were reloaded. *)
Record World : Type := mkWorld {
  pushed : list (string * StoredAction);
  loading : bool;
  alerts : list string;
  agent_calls : list Co2SavingsRequest;
  reloads : nat
}.

Definition setLoading (b : bool) : M World unit :=
  effect (fun w => {| pushed := pushed w; loading := b; alerts := alerts w;
                      agent_calls := agent_calls w; reloads := reloads w |}).

(** [Alert.alert(title, ...)]. *)
Definition alert (title : string) : M World unit :=
  effect (fun w => {| pushed := pushed w; loading := loading w;
                      alerts := (alerts w ++ [title])%list;
                      agent_calls := agent_calls w; reloads := reloads w |}).

(** [await loadData()], which catches its own failures. *)
Definition loadData : M World unit :=
  effect (fun w => {| pushed := pushed w; loading := loading w; alerts := alerts w;
                      agent_calls := agent_calls w; reloads := S (reloads w) |}).

(** [await getCo2Savings(request)]. *)
Definition getCo2Savings (agent : Agent) (request : Co2SavingsRequest) : M World value :=
  do effect (fun w => {| pushed := pushed w; loading := loading w; alerts := alerts w;
                         agent_calls := (agent_calls w ++ [request])%list;
                         reloads := reloads w |}) in
  lift (agent request).

(** [await push(ref(db, path), record)]. *)
Definition push (database : Database) (path : string) (record : StoredAction)
    : M World unit :=
  if database path record
  then effect (fun w => {| pushed := (pushed w ++ [(path, record)])%list;
                           loading := loading w; alerts := alerts w;
                           agent_calls := agent_calls w; reloads := reloads w |})
  else raise (Error "push failed").

Definition agent_action (actionType : ActionType) : string :=
  match actionType with
  | bike => "bike_trip"
  | walk => "walk_trip"
  | recycled => "recycled"
  | vegetarian => "ate_vegetarian"
  end.

Section WithRuntime.

Context `{Runtime}.

(** [logAction(actionType, distance)], for the user [userId] and with
    the clock reading [now] when the record is built.  The text of the
    alerts, which [normalizeMessageToUSCS] and [toFixed] build and which
    cannot throw, is left out. *)
Definition logAction (agent : Agent) (database : Database) (userId : string)
    (now : Z) (actionType : ActionType) (distance : number) : M World unit :=
  finally
    (try_catch
       (do setLoading true in
        let agentAction := agent_action actionType in
        let* agentResponse :=
          getCo2Savings agent {| user_id := userId;
                                 req_action := agentAction;
                                 req_distance_mi := distance |} in
        let* co2_field := lift (get agentResponse "co2_saved_kg") in
        let co2Kg := ToNumber co2_field in
        if negb (Num.isFinite co2Kg)
        then raise (Error "Agent did not return a valid CO₂ value. This action will NOT be saved to protect data integrity.")
        else
        let co2SavedLb := (co2Kg * KG_TO_LB)%num in
        let* message := lift (get agentResponse "message") in
        let* agent_meta := lift (get agentResponse "agent_meta") in
        let* engine := lift (get_optional agent_meta "engine") in
        do push database ("users/" ++ userId ++ "/actions")
             {| action := agentAction;
                distance_mi := distance;
                co2_saved_kg := co2Kg;
                co2_saved_lb := co2SavedLb;
                message := message;
                agent_engine := or_else engine (VStr "unknown");
                ts := now |} in
        do alert "Success! 🌱" in
        loadData)
       (fun error => alert "❌ Cannot Calculate CO₂"))
    (fun w => {| pushed := pushed w; loading := false; alerts := alerts w;
                 agent_calls := agent_calls w; reloads := reloads w |}).

End WithRuntime.

(** The request that [logAction] sends to the agent. *)
Definition request_of (userId : string) (actionType : ActionType) (distance : number)
    : Co2SavingsRequest :=
  {| user_id := userId; req_action := agent_action actionType;
     req_distance_mi := distance |}.

(** The screen before anything happened. *)
Definition initial_world : World :=
  {| pushed := []; loading := false; alerts := []; agent_calls := []; reloads := 0 |}.

(** A response of the agent whose estimate is [null]. *)
Definition null_estimate : value :=
  VObj [ ("user_id", VStr "demo-user");
         ("action", VStr "recycled");
         ("co2_saved_kg", VNull);
         ("message", VStr "Thanks for recycling!");
         ("agent_meta", VObj [ ("engine", VStr "asi_one");
                               ("model", VStr "asi1-mini");
                               ("timestamp", VNum (Num.of_Z 1700000000)) ]) ].

End Tracker.

(** ** Sample data *)

Module Samples.
Import Json.

Local Open Scope string_scope.

(** An instance of the run-time, for the statements that are
    instantiated on concrete inputs below; every theorem holds for all
    instances. *)
Definition sample_runtime : Runtime :=
  {| StringToNumber := λ _, NaN;
     NumberToString := λ _, "0";
     Math_PI := Fin 3.141592653589793;
     Math_sin := λ x, x;
     Math_cos := λ _, Num.one;
     Math_sqrt := λ x, x;
     Math_atan2 := λ y _, y |}.

(** A record whose pounds field is a number, but not a finite one. *)
Definition pounds_infinite_record : Gamification.EcoActionRecord :=
  {| Gamification.action := "bike_trip";
     Gamification.distance_km := None;
     Gamification.distance_mi := Some (Num.of_Z 1);
     Gamification.co2_saved_kg := Some (Num.of_Z 1);
     Gamification.co2_saved_lb := Some (Infinity false);
     Gamification.message := "";
     Gamification.ts := 1700000000000 |}.

(** A record whose two CO2 fields disagree. *)
Definition pounds_and_kg_disagree : Gamification.EcoActionRecord :=
  {| Gamification.action := "walk_trip";
     Gamification.distance_km := None;
     Gamification.distance_mi := None;
     Gamification.co2_saved_kg := Some (Num.of_Z 100);
     Gamification.co2_saved_lb := Some (Fin 1.5);
     Gamification.message := "";
     Gamification.ts := 1700000000000 |}.

(** A record with pounds only. *)
Definition pounds_only_record : Gamification.EcoActionRecord :=
  {| Gamification.action := "walk_trip";
     Gamification.distance_km := None;
     Gamification.distance_mi := Some (Num.of_Z 3);
     Gamification.co2_saved_kg := None;
     Gamification.co2_saved_lb := Some (Fin 2.25);
     Gamification.message := "";
     Gamification.ts := 1699950000000 |}.

(** A legacy record: kilograms only. *)
Definition legacy_record : Gamification.EcoActionRecord :=
  {| Gamification.action := "recycled";
     Gamification.distance_km := None;
     Gamification.distance_mi := None;
     Gamification.co2_saved_kg := Some (Num.of_Z 2);
     Gamification.co2_saved_lb := None;
     Gamification.message := "";
     Gamification.ts := 1699900000000 |}.

(** A record logged at the instant [t]. *)
Definition logged_at (t : Z) : Gamification.EcoActionRecord :=
  {| Gamification.action := "bike_trip";
     Gamification.distance_km := None;
     Gamification.distance_mi := Some (Num.of_Z 2);
     Gamification.co2_saved_kg := Some (Fin 0.5);
     Gamification.co2_saved_lb := Some (Fin 1.10231);
     Gamification.message := "";
     Gamification.ts := t |}.

(** A device eight hours west of UTC, all year. *)
Definition pacific : Z → Z := λ _, -480.

(** The local midnights of that device. *)
Definition pacific_midnight : Z → Z := λ day, day * 86400000 + 480 * 60000.

(** 2023-11-14, 14:13:20 on that device. *)
Definition sample_now : Z := 1700000000000.

Definition hour : Z := 3600000.

(** Active today (twice), yesterday and three days ago, in no
    particular order. *)
Definition gap_history : list Gamification.EcoActionRecord :=
  [ logged_at (sample_now - 24 * hour);
    logged_at (sample_now - 72 * hour);
    logged_at (sample_now - 1 * hour);
    logged_at (sample_now - 3 * hour) ].

(** A device in Santiago, around 3 September 2023: four hours west
    of UTC until 04:00 UTC on that day, when the clocks go from 00:00
    to 01:00, and three hours west from then on. *)
Definition santiago : Z → Z :=
  λ t, if (t <? 1693713600000)%Z then -240 else -180.

(** The local midnights of that device: 00:00 of 3 September 2023
    (day 19603) does not exist, and the [Date] constructor gives 01:00
    of that day, the instant that the offset before the change gives. *)
Definition santiago_midnight : Z → Z :=
  λ day, if (day <=? 19603)%Z
         then day * 86400000 + 240 * 60000
         else day * 86400000 + 180 * 60000.

(** Noon on 4 September 2023 in Santiago. *)
Definition september_now : Z := 1693839600000.

(** One record on each of 2, 3 and 4 September 2023, at noon in
    Santiago. *)
Definition september_history : list Gamification.EcoActionRecord :=
  [ logged_at (september_now - 47 * hour);
    logged_at (september_now - 24 * hour);
    logged_at september_now ].

Definition sample_origin : Directions.Coordinate :=
  {| Directions.latitude := Fin 37.7749; Directions.longitude := Fin (-122.4194) |}.

Definition sample_destination : Directions.Coordinate :=
  {| Directions.latitude := Fin 37.8044; Directions.longitude := Fin (-122.2712) |}.



(** A routing service that finds one route of two legs. *)
Definition two_legs : Directions.Network :=
  λ _, Directions.Response
         (Some (VObj
            [ ("status", VStr "OK");
              ("routes",
               VArr [ VObj
                 [ ("legs",
                    VArr [ VObj [ ("distance", VObj [("value", VNum (Num.of_Z 1000))]);
                                  ("duration", VObj [("value", VNum (Num.of_Z 300))]) ];
                           VObj [ ("distance", VObj [("value", VNum (Num.of_Z 609))]) ] ]);
                   ("overview_polyline", VObj [("points", VStr "_p~iF~ps|U")]) ] ]) ])).

End Samples.

(** ** More operations on numbers *)

Module NumOps.

(** [x < y]; every comparison with [NaN] is false. *)
Definition ltb (x y : number) : bool :=
  match x, y with
  | NaN, _ | _, NaN => false
  | Infinity s, Infinity s' => s && negb s'
  | Infinity s, Fin _ => s
  | Fin _, Infinity s => negb s
  | Fin a, Fin b => negb (Qle_bool b a)
  end.

(** [x > y]. *)
Definition gtb (x y : number) : bool := ltb y x.

(** Two numbers that have the same value; a finite value may be written
    as more than one fraction. *)
Definition same (x y : number) : Prop :=
  match x, y with
  | NaN, NaN => True
  | Infinity s, Infinity s' => s = s'
  | Fin a, Fin b => (a == b)%Q
  | _, _ => False
  end.

End NumOps.

Infix "<?" := NumOps.ltb (at level 70) : num_scope.
Infix ">?" := NumOps.gtb (at level 70) : num_scope.

(** ** [Array.prototype.sort] *)

Module ArraySort.

Section Sort.

Context {A : Type} (R : relation A) `{!RelDecision R}.

(** [x] put into a sorted list: before the first element that it may
    stand before. *)
Fixpoint insert_by (x : A) (l : list A) : list A :=
  match l with
  | [] => [x]
  | y :: rest =>
      if decide (R x y) then x :: y :: rest else y :: insert_by x rest
  end.

(** [l.sort(compare)] for a consistent comparator, where [R a b] says
    that [compare(a, b)] is not positive.  The sort is stable: an
    element stays before the elements after it that compare equal to
    it. *)
Definition sort_by (l : list A) : list A := foldr insert_by [] l.

End Sort.

End ArraySort.

(** ** [src/lib/gamification.ts]: the statistics of a user *)

Module Stats.
Import Gamification Streak.

(** [interface UserStats]. *)
Record UserStats : Type := mkUserStats {
  totalCo2Saved : number;
  todayCo2Saved : number;
  streak : Z;
  level : number;
  badges : list Badge
}.

(** What [get(ref(db, path))] does: it rejects, or it resolves to a
    snapshot, of which the functions below read the children, in the
    order of [snapshot.forEach]; a snapshot that does not exist has
    none. *)
Inductive Fetched : Type :=
| GetRejects
| Snapshot (children : list EcoActionRecord).

(** [Array.prototype.slice(0, end)] for an integer [end]: a negative
    [end] counts from the end of the array. *)
Definition slice_to {A : Type} (final : Z) (l : list A) : list A :=
  let len := Z.of_nat (length l) in
  let k := if final <? 0 then Z.max (len + final) 0 else Z.min final len in
  take (Z.to_nat k) l.

(** [getRecentActions(userId, limit)] on what the database answers for
    the actions of the user; [limit] is 5 when it is not given. *)
Definition getRecentActions (fetched : Fetched) (limit : option Z)
    : list EcoActionRecord :=
  match fetched with
  | GetRejects => []
  | Snapshot actions =>
      slice_to (default 5 limit) (ArraySort.sort_by by_ts_desc actions)
  end.

Section Clock.

Variable utcOffset : Z -> Z.
Variable localMidnight : Z -> Z.

(** [calculateTodayCo2(actions)], evaluated when the clock reads [now]. *)
Definition calculateTodayCo2 (now : Z) (actions : list EcoActionRecord) : number :=
  let today := dayKey utcOffset now in
  reduce (fun sum action => (sum + actionCo2Lb action)%num) Num.zero
    (filter (λ action, dayKey utcOffset (ts action) = today) actions).

(** [getUserStats(userId)], evaluated when the clock reads [now], on
    what the database answers for the actions of the user. *)
Definition getUserStats (now : Z) (fetched : Fetched) : UserStats :=
  match fetched with
  | Snapshot actions =>
      let totalCo2Saved := calculateTotalCo2 actions in
      let todayCo2Saved := calculateTodayCo2 now actions in
      let streak := calculateStreak utcOffset localMidnight now actions in
      let level := calculateLevel totalCo2Saved in
      let badges := calculateBadges totalCo2Saved in
      {| totalCo2Saved := totalCo2Saved;
         todayCo2Saved := todayCo2Saved;
         streak := streak;
         level := level;
         badges := badges |}
  | GetRejects =>
      {| totalCo2Saved := Num.of_Z 0;
         todayCo2Saved := Num.of_Z 0;
         streak := 0;
         level := Num.of_Z 1;
         badges := calculateBadges (Num.of_Z 0) |}
  end.

End Clock.

(** A record whose reconciled value is finite and not negative. *)
Definition saves (a : EcoActionRecord) : Prop :=
  ∃ q, actionCo2Lb a = Fin q ∧ (0 <= q)%Q.

(** A record of the history that carries the CO2 fields and the time
    stamp of an object that [logAction] pushed. *)
Definition reads_as (stored : Tracker.StoredAction) (r : EcoActionRecord) : Prop :=
  co2_saved_kg r = Some (Tracker.co2_saved_kg stored) ∧
  co2_saved_lb r = Some (Tracker.co2_saved_lb stored) ∧
  ts r = Tracker.ts stored.

(** [(typeof action.co2_saved_lb === "number" ? action.co2_saved_lb
      : action.co2_saved_kg * KG_TO_LB) || 0]: the pounds that a row of
    the history on the tracker screen shows. *)
Definition row_co2_lb (a : EcoActionRecord) : number :=
  let shown :=
    match co2_saved_lb a with
    | Some lb => lb
    | None =>
        (match co2_saved_kg a with Some kg => kg | None => NaN end
         * Tracker.KG_TO_LB)%num
    end in
  if Num.truthy shown then shown else Num.of_Z 0.

End Stats.

(** ** More sample data *)

Module MoreSamples.
Import Json.

Local Open Scope string_scope.

(** A response of the agent with an estimate of 0.8 kg and no
    [agent_meta]. *)
Definition finite_estimate : value :=
  VObj [ ("user_id", VStr "demo-user");
         ("action", VStr "recycled");
         ("co2_saved_kg", VNum (Fin 0.8));
         ("message", VStr "Recycling saves energy.") ].

(** A routing service that finds a route of one leg and gives no
    overview polyline. *)
Definition no_overview : Directions.Network :=
  λ _, Directions.Response
         (Some (VObj
            [ ("status", VStr "OK");
              ("routes",
               VArr [ VObj
                 [ ("legs",
                    VArr [ VObj [ ("distance", VObj [("value", VNum (Num.of_Z 1000))]);
                                  ("duration", VObj [("value", VNum (Num.of_Z 300))]) ] ]) ] ]) ])).

(** The record of the history that reads the object pushed for
    [finite_estimate] at the instant [Samples.sample_now]. *)
Definition saved_record : Gamification.EcoActionRecord :=
  {| Gamification.action := "recycled";
     Gamification.distance_km := None;
     Gamification.distance_mi := Some Num.zero;
     Gamification.co2_saved_kg := Some (Fin 0.8);
     Gamification.co2_saved_lb := Some (Fin (Qred (0.8 * 2.20462)));
     Gamification.message := "Recycling saves energy.";
     Gamification.ts := 1700000000000 |}.

End MoreSamples.

(** ** Well-formed answers of the routing service, well-formed polylines *)

Module Shapes.
Import Json Directions.

Local Open Scope string_scope.

(** A leg whose [distance.value] is the number [meters]. *)
Definition leg_meters (leg : value) (meters : number) : Prop :=
  ∃ distance, get leg "distance" = ok distance ∧
              get distance "value" = ok (VNum meters).

(** The sum of numbers, from the first to the last, from 0 on. *)
Definition total (numbers : list number) : number :=
  fold_left Num.add numbers Num.zero.

(** A code unit of a polyline that announces another one in its group:
    [b >= 0x20] for [b = c - 63]. *)
Definition continues (c : Z) : bool := (32 <=? c - 63)%Z.

(** A group of a polyline: code units that continue, then one that does
    not. *)
Inductive group : list Z → Prop :=
| group_last c : continues c = false → group [c]
| group_more c g : continues c = true → group g → group (c :: g).

(** A polyline of whole points: each point is a group for the latitude
    followed by a group for the longitude. *)
Inductive whole : list Z → Prop :=
| whole_nil : whole []
| whole_point lat lng rest :
    group lat → group lng → whole rest → whole (lat ++ lng ++ rest)%list.

End Shapes.

(** ** [src/lib/config.ts] and the agent's URL of [src/lib/agentClient.ts] *)

Module Config.
Import Json Eff.

Local Open Scope string_scope.
Local Open Scope eff_scope.

(** [s.startsWith(p)]. *)
Definition startsWith (s p : string) : bool := String.prefix p s.

(** The character of a double quotation mark, as a string. *)
Definition quote : string := String (ascii_of_nat 34) EmptyString.

(** [isAgentUrlValid()], for the configured [AGENT_URL]. *)
Definition isAgentUrlValid (AGENT_URL : string) : bool :=
  startsWith AGENT_URL "https://" || startsWith AGENT_URL "http://".

(** [getConfigErrorMessage()]; [None] is [null]. *)
Definition getConfigErrorMessage (AGENT_URL : string) : option string :=
  if negb (truthy (VStr AGENT_URL))
  then Some "Agent URL not configured. Please set EXPO_PUBLIC_AGENT_URL in .env and restart Expo."
  else
  if negb (startsWith AGENT_URL "https://") && negb (startsWith AGENT_URL "http://")
  then Some ("Invalid agent URL: " ++ quote ++ AGENT_URL ++ quote ++
             ". Must start with https:// or http://")
  else None.

(** [s.replace(/\/+$/, "")]: the first match of the pattern starts where
    the last run of slashes of [s] starts, when that run reaches the end
    of [s]; it is replaced by nothing. *)
Fixpoint strip_trailing_slashes (s : string) : string :=
  match s with
  | EmptyString => EmptyString
  | String c rest =>
      match strip_trailing_slashes rest with
      | EmptyString =>
          if Ascii.eqb c "/" then EmptyString else String c EmptyString
      | kept => String c kept
      end
  end.

(** A string of [n] slashes. *)
Fixpoint slashes (n : nat) : string :=
  match n with
  | O => EmptyString
  | S k => String "/" (slashes k)
  end.

(** [s.endsWith("/")]. *)
Fixpoint ends_with_slash (s : string) : bool :=
  match s with
  | EmptyString => false
  | String c EmptyString => Ascii.eqb c "/"
  | String _ rest => ends_with_slash rest
  end.

(** What [get(ref(db, "/config/agent_url"))] does: it rejects, or it
    resolves to a snapshot with a value, [null] for a snapshot that does
    not exist. *)
Inductive ConfigFetched : Type :=
| ConfigRejects (reason : value)
| ConfigSnapshot (val : value).

(** [snapshot.exists()]. *)
Definition snapshot_exists (val : value) : bool :=
  match val with VNull => false | _ => true end.

(** The body of the [try] block of [getAgentUrl]: [Some] for its
    [return], [None] when it falls through.  The world is the list of
    the paths of the database that were read, oldest first. *)
Definition agent_url_of_database (database : ConfigFetched)
    : M (list string) (option string) :=
  do effect (fun reads => (reads ++ ["/config/agent_url"])%list) in
  match database with
  | ConfigRejects reason => raise (Rejected reason)
  | ConfigSnapshot val =>
      if snapshot_exists val
      then match val with
           | VStr fbUrl => ret (Some (strip_trailing_slashes fbUrl))
           | _ => raise (TypeError "fbUrl.replace is not a function")
           end
      else ret None
  end.

(** [getAgentUrl()]. *)
Definition getAgentUrl (AGENT_URL : string) (database : ConfigFetched)
    : M (list string) string :=
  if truthy (VStr AGENT_URL) &&
     (startsWith AGENT_URL "https://" || startsWith AGENT_URL "http://")
  then ret (strip_trailing_slashes AGENT_URL)
  else
    let* found :=
      try_catch (agent_url_of_database database) (fun error => ret None) in
    match found with
    | Some url => ret url
    | None =>
        raise (Error "Agent URL not configured. Please set EXPO_PUBLIC_AGENT_URL in .env (must start with https://) or set /config/agent_url in Firebase. Restart Expo with: npx expo start -c")
    end.

End Config.

(** ** [app/(tabs)/leaderboard.tsx] *)

Module Leaderboard.
Import Json Gamification.

Local Open Scope string_scope.

Definition KG_TO_LB : number := Fin 2.20462.

(** [typeof e?.key === "number"], and the number then. *)
Definition number_field (e : value) (key : string) : option number :=
  match get_optional e key with
  | inr (VNum n) => Some n
  | _ => None
  end.

(** [asLb(e)]. *)
Definition asLb (e : value) : number :=
  let lb :=
    match number_field e "total_co2_saved_lb" with
    | Some lb => lb
    | None =>
        match number_field e "total_co2_saved_kg" with
        | Some kg => (kg * KG_TO_LB)%num
        | None => Num.of_Z 0
        end
    end in
  if Num.isFinite lb then lb else Num.of_Z 0.

(** The fields of [{ ...e, key: v }]: the property keeps its place when
    [e] has it, and comes last otherwise. *)
Fixpoint set_field (key : string) (v : value) (fields : list (string * value))
    : list (string * value) :=
  match fields with
  | [] => [(key, v)]
  | (k, old) :: rest =>
      if String.eqb k key then (k, v) :: rest
      else (k, old) :: set_field key v rest
  end.

(** [{ ...e, total_co2_saved_lb: asLb(e) }], for an entry that is an
    object. *)
Definition normalized (e : value) : value :=
  match e with
  | VObj fields => VObj (set_field "total_co2_saved_lb" (VNum (asLb e)) fields)
  | _ => VObj [("total_co2_saved_lb", VNum (asLb e))]
  end.

Definition DEMO_USERS : list value :=
  [ VObj [ ("name", VStr "Bob");
           ("total_co2_saved_lb", VNum (Num.of_Z 12));
           ("isDemoUser", VBool true) ] ].

(** The loop over [Object.values(actions)]:
    [if (typeof action.co2_saved_kg === "number")
       userTotalKg += action.co2_saved_kg]. *)
Definition userTotalKg (actions : list EcoActionRecord) : number :=
  fold_left
    (fun total action =>
       match co2_saved_kg action with
       | Some kg => (total + kg)%num
       | None => total
       end)
    actions (Num.of_Z 0).

(** The entry of the current user. *)
Definition currentUserEntry (userTotalLb : number) : value :=
  VObj [ ("name", VStr "You");
         ("total_co2_saved_lb", VNum userTotalLb);
         ("isCurrentUser", VBool true) ].

(** The order that [allEntries.sort((a, b) => asLb(b) - asLb(a))] asks
    for: [a] may stay before [b] when the comparator is not positive. *)
Definition by_total_desc (a b : value) : Prop :=
  ((asLb b - asLb a) <=? Num.of_Z 0)%num = true.

#[export] Instance by_total_desc_dec : RelDecision by_total_desc.
Proof. intros a b. unfold by_total_desc. apply _. Defined.

(** [loadLeaderboard()] on what the database answers for the actions of
    the user: the list that [setLeaderboard] receives, [None] when it is
    not called. *)
Definition loadLeaderboard (fetched : Stats.Fetched) : option (list value) :=
  match fetched with
  | Stats.GetRejects => None
  | Stats.Snapshot actions =>
      let userTotalLb := (userTotalKg actions * Fin 2.20462)%num in
      let allEntriesRaw := currentUserEntry userTotalLb :: DEMO_USERS in
      let allEntries := map normalized allEntriesRaw in
      Some (ArraySort.sort_by by_total_desc allEntries)
  end.

End Leaderboard.

(** ** [app/lib/geo.ts] *)

Module Geo.
Import Json Eff.

Local Open Scope eff_scope.

Definition ACCURACY_THRESHOLD_M : number := Num.of_Z 50.
Definition SPEED_THRESHOLD_MS : number := Num.of_Z 12.
Definition JITTER_THRESHOLD_M : number := Num.of_Z 3.

(** [interface TrackPoint]; a [speed] of [null] is [None]. *)
Record TrackPoint : Type := mkTrackPoint {
  latitude : number;
  longitude : number;
  timestamp : number;
  accuracy : number;
  speed : option number
}.

(** A location as the operating system reports it; the accuracy and the
    speed may be [null]. *)
Record LocationObject : Type := mkLocation {
  coords_latitude : number;
  coords_longitude : number;
  coords_accuracy : option number;
  coords_speed : option number;
  location_timestamp : number
}.

(** What the background task receives: whether [error] is set, and
    [data.locations], [None] when [data] or the list is missing. *)
Record TaskInput : Type := mkTaskInput {
  task_error : bool;
  locations : option (list LocationObject)
}.

(** What the operating system answers to a request. *)
Inductive Answer (A : Type) : Type :=
| Rejects
| Resolves (answer : A).
Arguments Rejects {A}.
Arguments Resolves {A} answer.

(** The operating system: the status of the foreground and of the
    background permission, whether the location updates can be started,
    whether the task is registered, and whether the updates can be
    stopped. *)
Record System : Type := mkSystem {
  foreground : Answer string;
  background : Answer string;
  start_updates : Answer unit;
  task_registered : Answer bool;
  stop_updates : Answer unit
}.

Inductive Call : Type :=
| RequestForeground
| RequestBackground
| StartLocationUpdates
| IsTaskRegistered
| StopLocationUpdates.

(** The state of the module, and the calls to the operating system,
    oldest first. *)
Record World : Type := mkWorld {
  trackingPoints : list TrackPoint;
  isTracking : bool;
  calls : list Call
}.

Definition call {A : Type} (c : Call) (answer : Answer A) : M World A :=
  do effect (fun w => {| trackingPoints := trackingPoints w;
                         isTracking := isTracking w;
                         calls := (calls w ++ [c])%list |}) in
  match answer with
  | Rejects => raise (Error "rejected")
  | Resolves a => ret a
  end.

Definition set_isTracking (b : bool) : M World unit :=
  effect (fun w => {| trackingPoints := trackingPoints w;
                      isTracking := b;
                      calls := calls w |}).

Definition set_trackingPoints (points : list TrackPoint) : M World unit :=
  effect (fun w => {| trackingPoints := points;
                      isTracking := isTracking w;
                      calls := calls w |}).

Section WithRuntime.

Context `{Runtime}.

(** [haversineDistance(lat1, lon1, lat2, lon2)], in meters. *)
Definition haversineDistance (lat1 lon1 lat2 lon2 : number) : number :=
  let R := Fin 6371000 in
  let φ1 := (lat1 * Math_PI / Num.of_Z 180)%num in
  let φ2 := (lat2 * Math_PI / Num.of_Z 180)%num in
  let Δφ := ((lat2 - lat1) * Math_PI / Num.of_Z 180)%num in
  let Δλ := ((lon2 - lon1) * Math_PI / Num.of_Z 180)%num in
  let a :=
    (Math_sin (Δφ / Num.of_Z 2) * Math_sin (Δφ / Num.of_Z 2) +
     Math_cos φ1 * Math_cos φ2 *
       Math_sin (Δλ / Num.of_Z 2) * Math_sin (Δλ / Num.of_Z 2))%num in
  let c :=
    (Num.of_Z 2 * Math_atan2 (Math_sqrt a) (Math_sqrt (Num.one - a)))%num in
  (R * c)%num.

(** The point that the task builds from a location;
    [accuracy: location.coords.accuracy || 999]. *)
Definition point_of (location : LocationObject) : TrackPoint :=
  {| latitude := coords_latitude location;
     longitude := coords_longitude location;
     timestamp := location_timestamp location;
     accuracy :=
       match coords_accuracy location with
       | Some a => if Num.truthy a then a else Num.of_Z 999
       | None => Num.of_Z 999
       end;
     speed := coords_speed location |}.

(** [point.speed !== null && point.speed > SPEED_THRESHOLD_MS]. *)
Definition too_fast (point : TrackPoint) : bool :=
  match speed point with
  | Some s => (s >? SPEED_THRESHOLD_MS)%num
  | None => false
  end.

(** The distance of two points, by their coordinates. *)
Definition apart (p q : TrackPoint) : number :=
  haversineDistance (latitude p) (longitude p) (latitude q) (longitude q).

(** The background location task, on the points recorded so far. *)
Definition task (input : TaskInput) (points : list TrackPoint) : list TrackPoint :=
  if task_error input then points else
  match locations input with
  | Some (location :: _) =>
      let point := point_of location in
      if (accuracy point >? ACCURACY_THRESHOLD_M)%num then points else
      if too_fast point then points else
      match last points with
      | Some lastPoint =>
          if (apart lastPoint point <? JITTER_THRESHOLD_M)%num
          then points
          else (points ++ [point])%list
      | None => (points ++ [point])%list
      end
  | _ => points
  end.

(** The task run on each input in turn. *)
Definition run_task (inputs : list TaskInput) (points : list TrackPoint)
    : list TrackPoint :=
  fold_left (fun points input => task input points) inputs points.

(** The loop of [totalDistanceMeters], from the point [prev] on. *)
Fixpoint sum_steps (prev : TrackPoint) (rest : list TrackPoint)
    (totalDistance : number) : number :=
  match rest with
  | [] => totalDistance
  | curr :: rest' => sum_steps curr rest' (totalDistance + apart prev curr)%num
  end.

(** [totalDistanceMeters()]. *)
Definition totalDistanceMeters (points : list TrackPoint) : number :=
  match points with
  | [] | [_] => Num.of_Z 0
  | first :: rest => sum_steps first rest (Num.of_Z 0)
  end.

(** [totalDistanceMi()]. *)
Definition totalDistanceMi (points : list TrackPoint) : number :=
  let meters := totalDistanceMeters points in
  let km := (meters / Num.of_Z 1000)%num in
  (km * Fin 0.621371)%num.

End WithRuntime.

(** [requestPermissions()]. *)
Definition requestPermissions (os : System) : M World bool :=
  try_catch
    (let* foregroundStatus := call RequestForeground (foreground os) in
     if negb (String.eqb foregroundStatus "granted") then ret false else
     let* backgroundStatus := call RequestBackground (background os) in
     ret true)
    (fun error => ret false).

(** [startTracking()].  The background task is taken not to run while
    this function is under way. *)
Definition startTracking (os : System) : M World bool :=
  try_catch
    (let* hasPermission := requestPermissions os in
     if negb hasPermission
     then raise (Error "Location permission not granted")
     else
     do set_trackingPoints [] in
     do set_isTracking true in
     do call StartLocationUpdates (start_updates os) in
     ret true)
    (fun error =>
       do set_isTracking false in
       ret false).

(** [stopTracking()]. *)
Definition stopTracking (os : System) : M World unit :=
  try_catch
    (let* hasStarted := call IsTaskRegistered (task_registered os) in
     do (if hasStarted : bool
         then call StopLocationUpdates (stop_updates os)
         else ret tt) in
     set_isTracking false)
    (fun error => ret tt).

(** A point that passes the filters of the task on its own: an accuracy
    of at most 50 m that is not 0, and no speed above 12 m/s. *)
Definition good (p : TrackPoint) : Prop :=
  (accuracy p <=? ACCURACY_THRESHOLD_M)%num = true ∧
  Num.truthy (accuracy p) = true ∧
  ∀ s, speed p = Some s → (s >? SPEED_THRESHOLD_MS)%num = false.

(** Points of which no two neighbours are measured less than 3 m
    apart. *)
Fixpoint spaced `{Runtime} (points : list TrackPoint) : Prop :=
  match points with
  | p :: (q :: _) as rest =>
      (apart p q <? JITTER_THRESHOLD_M)%num = false ∧ spaced rest
  | _ => True
  end.

End Geo.

(** ** [app/modals/VegetarianModal.tsx] *)

Module VegetarianModal.
Import Json.

Local Open Scope string_scope.

(** The state of the form; a [selectedPortion] of [null] is [None]. *)
Record Form : Type := mkForm {
  selectedMeat : string;
  selectedPortion : option number;
  customPortion : string
}.

(** What the form did: the alerts it showed and the calls of
    [onSubmit], oldest first. *)
Record Outcome : Type := mkOutcome {
  alerts : list (string * string);
  submitted : list (string * number)
}.

Definition empty_form : Form :=
  {| selectedMeat := ""; selectedPortion := None; customPortion := "" |}.

Section WithParser.

(** [parseFloat]. *)
Variable parseFloat : string -> number.

(** [customPortion ? parseFloat(customPortion) : selectedPortion]. *)
Definition portion_of (form : Form) : option number :=
  if truthy (VStr (customPortion form))
  then Some (parseFloat (customPortion form))
  else selectedPortion form.

(** [!portionG || portionG <= 0]. *)
Definition portion_refused (portionG : option number) : bool :=
  match portionG with
  | None => true
  | Some p => negb (Num.truthy p) || (p <=? Num.of_Z 0)%num
  end.

(** [handleSubmit()]: the form and the outcome after it. *)
Definition handleSubmit (form : Form) (seen : Outcome) : Form * Outcome :=
  if negb (truthy (VStr (selectedMeat form)))
  then (form,
        {| alerts := (alerts seen ++
                      [("Missing Info", "Please select the meat type you avoided")])%list;
           submitted := submitted seen |})
  else
  let portionG := portion_of form in
  if portion_refused portionG
  then (form,
        {| alerts := (alerts seen ++
                      [("Missing Info", "Please select or enter a portion size")])%list;
           submitted := submitted seen |})
  else
  match portionG with
  | Some p =>
      (empty_form,
       {| alerts := alerts seen;
          submitted := (submitted seen ++ [(selectedMeat form, p)])%list |})
  | None => (form, seen)
  end.

End WithParser.

End VegetarianModal.

(** ** Sample reports of the operating system *)

Module TrackSamples.
Import Geo.

(** A location at the latitude [lat] on one meridian, with an accuracy
    of 10 m and a speed of 1 m/s. *)
Definition located (lat : Z) : LocationObject :=
  {| coords_latitude := Num.of_Z lat;
     coords_longitude := Fin (-122.4194);
     coords_accuracy := Some (Num.of_Z 10);
     coords_speed := Some (Num.of_Z 1);
     location_timestamp := Num.of_Z 1700000000000 |}.

(** The input of the task for one location. *)
Definition reported (location : LocationObject) : TaskInput :=
  {| task_error := false; locations := Some [location] |}.

(** Three reports: two at the same place, one a degree to the north. *)
Definition northward : list TaskInput :=
  [ reported (located 37); reported (located 37); reported (located 38) ].

End TrackSamples.

(** * Properties *)

(** ** Numbers *)

Module NumFacts.

Lemma geb_trans (x y z : number) :
  (x >=? y)%num = true → (y >=? z)%num = true → (x >=? z)%num = true.
Proof.
  destruct x as [|sx|a], y as [|sy|b], z as [|sz|c]; simpl;
    repeat match goal with s : bool |- _ => destruct s end; simpl;
    try done.
  rewrite !Qle_bool_iff. intros Hba Hcb. by apply Qle_trans with b.
Qed.

Lemma Qred_inject_Z (z : Z) : Qred (inject_Z z) = inject_Z z.
Proof. apply Qred_identity. simpl. apply Z.gcd_1_r. Qed.

Lemma add_of_Z (a b : Z) : (Num.of_Z a + Num.of_Z b)%num = Num.of_Z (a + b).
Proof.
  unfold Num.of_Z. simpl. f_equal.
  rewrite <- (Qred_inject_Z (a + b)). apply Qred_complete.
  rewrite inject_Z_plus. reflexivity.
Qed.

Lemma Qsign_pos (q : Q) : (0 < q)%Q → Num.Qsign q = Gt.
Proof. intros Hq. unfold Num.Qsign. by apply Qgt_alt. Qed.

Lemma div_finite (a b : Q) :
  (0 < b)%Q → (Fin a / Fin b)%num = Fin (Qred (a / b)).
Proof. intros Hb. simpl. by rewrite (Qsign_pos b Hb). Qed.

Example nan_compares_false : (NaN >=? NaN)%num = false ∧ (NaN <=? Num.zero)%num = false.
Proof. split; reflexivity. Qed.

Example infinity_minus_infinity : (Infinity false - Infinity false)%num = NaN.
Proof. reflexivity. Qed.

End NumFacts.

(** ** The gamification engine *)

Module GamificationFacts.
Import Gamification NumFacts Samples.

(** *** Reconciliation of the units *)

Lemma kg_or_zero_mul (kg : option number) :
  (kg_or_zero kg * KG_TO_LB)%num =
  (match kg with None | Some NaN => Num.zero | Some n => n end * KG_TO_LB)%num.
Proof.
  destruct kg as [[|s|q]|]; simpl; try reflexivity.
  destruct (Qeq_bool q 0) eqn:Hq; simpl; [|reflexivity].
  apply Qeq_bool_eq in Hq. f_equal. apply Qred_complete.
  rewrite Hq. reflexivity.
Qed.

Example legacy_record_converted :
  actionCo2Lb legacy_record = Fin (Qred (2 * 2.20462)).
Proof. reflexivity. Qed.

Example missing_fields_count_zero :
  actionCo2Lb (with_kg None legacy_record) = Num.zero ∧
  actionCo2Lb (with_kg (Some NaN) legacy_record) = Num.zero.
Proof. split; reflexivity. Qed.

(** C2, as the specification states it, fails: a pounds field that is a
    number but not a finite one (here [Infinity]) is returned as it is,
    where the specification falls back on the kilograms field. *)
Lemma actionCo2Lb_infinite_pounds_not_spec :
  Num.isFinite (Infinity false) = false ∧
  actionCo2Lb pounds_infinite_record = Infinity false ∧
  actionCo2Lb_spec pounds_infinite_record = Fin (Qred 2.20462) ∧
  actionCo2Lb pounds_infinite_record ≠ actionCo2Lb_spec pounds_infinite_record.
Proof. do 3 (split; [reflexivity|]). discriminate. Qed.

(** C2, amended: for every record, [actionCo2Lb] returns the pounds
    field as it is whenever that field is a number, finite or not;
    without a pounds field it returns the kilograms field, a missing or
    not-a-number one counting as zero, times 2.20462; it is total; with
    a pounds field the kilograms field has no effect on the result; and
    the result is the one of the specification whenever the pounds field
    is missing or finite. *)
Theorem actionCo2Lb_prefers_pounds (a : EcoActionRecord) :
  (∀ lb, co2_saved_lb a = Some lb → actionCo2Lb a = lb) ∧
  (co2_saved_lb a = None →
   actionCo2Lb a =
   (match co2_saved_kg a with
    | None | Some NaN => Num.zero
    | Some kg => kg
    end * KG_TO_LB)%num) ∧
  (∀ lb kg, co2_saved_lb a = Some lb →
            actionCo2Lb (with_kg kg a) = actionCo2Lb a) ∧
  (co2_saved_lb a = None ∨ (∃ q, co2_saved_lb a = Some (Fin q)) →
   actionCo2Lb a = actionCo2Lb_spec a).
Proof.
  unfold actionCo2Lb, actionCo2Lb_spec. repeat split.
  - intros lb ->. reflexivity.
  - intros ->. apply kg_or_zero_mul.
  - intros lb kg Hlb. simpl. rewrite Hlb. reflexivity.
  - intros [-> | [q ->]]; [apply kg_or_zero_mul | reflexivity].
Qed.

Lemma actionCo2Lb_disagreeing_fields :
  actionCo2Lb pounds_and_kg_disagree = Fin 1.5 ∧
  actionCo2Lb (with_kg None pounds_and_kg_disagree) =
  actionCo2Lb pounds_and_kg_disagree ∧
  actionCo2Lb legacy_record = actionCo2Lb_spec legacy_record.
Proof.
  destruct (actionCo2Lb_prefers_pounds pounds_and_kg_disagree) as (Hlb & _ & Hkg & _).
  destruct (actionCo2Lb_prefers_pounds legacy_record) as (_ & _ & _ & Hspec).
  split; [|split].
  - apply Hlb. reflexivity.
  - apply (Hkg (Fin 1.5)). reflexivity.
  - apply Hspec. left. reflexivity.
Defined.

(** *** The total *)

Lemma partial_sum_app actions more n :
  (n <= length actions)%nat → partial_sum (actions ++ more) n = partial_sum actions n.
Proof.
  induction n as [|k IH]; intros Hn; simpl; [reflexivity|].
  rewrite IH by lia. rewrite lookup_app_l by lia. reflexivity.
Qed.

Lemma calculateTotalCo2_snoc actions a :
  calculateTotalCo2 (actions ++ [a]) = (calculateTotalCo2 actions + actionCo2Lb a)%num.
Proof. unfold calculateTotalCo2, reduce. by rewrite fold_left_app. Qed.

Lemma calculateTotalCo2_partial_sum actions :
  calculateTotalCo2 actions = partial_sum actions (length actions).
Proof.
  induction actions as [|a actions IH] using rev_ind; [reflexivity|].
  rewrite calculateTotalCo2_snoc, length_app, Nat.add_1_r. simpl.
  rewrite partial_sum_app by lia. rewrite <- IH.
  rewrite lookup_app_r by lia. rewrite Nat.sub_diag. reflexivity.
Qed.

Lemma calculateTotalCo2_finite actions qs :
  map actionCo2Lb actions = map Fin qs →
  ∃ total, calculateTotalCo2 actions = Fin total ∧ (total == Qsum qs)%Q.
Proof.
  revert qs. induction actions as [|a actions IH] using rev_ind; intros qs Hqs.
  - destruct qs; [|discriminate]. exists 0%Q. split; reflexivity.
  - destruct (decide (qs = [])) as [->|Hne].
    { rewrite map_app in Hqs. by destruct (map actionCo2Lb actions). }
    destruct (exists_last Hne) as (qs' & q & ->).
    rewrite !map_app in Hqs. simpl in Hqs.
    apply app_inj_tail in Hqs as [Hqs Ha].
    destruct (IH _ Hqs) as (total & Htotal & Hsum).
    rewrite calculateTotalCo2_snoc, Htotal, Ha. simpl.
    eexists. split; [reflexivity|].
    rewrite Qred_correct, Hsum. unfold Qsum.
    rewrite fold_right_app. simpl.
    clear. induction qs' as [|x qs' IH]; simpl; [ring|].
    rewrite <- IH. ring.
Qed.

Lemma calculateTotalCo2_values actions :
  calculateTotalCo2 actions = fold_left Num.add (map actionCo2Lb actions) Num.zero.
Proof.
  unfold calculateTotalCo2, reduce. generalize Num.zero.
  induction actions as [|a actions IH]; intros init; simpl; [reflexivity|].
  apply IH.
Qed.

Example total_of_nothing : calculateTotalCo2 [] = Num.zero.
Proof. reflexivity. Qed.

Example total_of_two :
  calculateTotalCo2 [pounds_and_kg_disagree; legacy_record] = Fin (Qred 5.90924).
Proof. reflexivity. Qed.

(** C5: for every history, [calculateTotalCo2] is the sum, over the
    records in their order, of the reconciled values [actionCo2Lb]; when
    these values are finite and every sum of the first values of the
    history is a number that binary64 holds exactly, so that no addition
    rounds, the total is exactly their sum, whatever its size (nothing
    is clamped); and the total depends on nothing but the reconciled
    values, so that evaluating it again on the same history gives the
    same total. *)
Theorem calculateTotalCo2_is_sum :
  (∀ actions, calculateTotalCo2 actions = partial_sum actions (length actions)) ∧
  (∀ actions qs,
     map actionCo2Lb actions = map Fin qs →
     Forall Num.binary64 qs →
     (∀ n, Num.binary64 (Qsum (take n qs))) →
     ∃ total, calculateTotalCo2 actions = Fin total ∧ (total == Qsum qs)%Q) ∧
  (∀ actions actions',
     map actionCo2Lb actions = map actionCo2Lb actions' →
     calculateTotalCo2 actions = calculateTotalCo2 actions').
Proof.
  split; [apply calculateTotalCo2_partial_sum|].
  split; [intros actions qs Hvalues _ _; by apply calculateTotalCo2_finite|].
  intros actions actions' Hmap.
  by rewrite !calculateTotalCo2_values, Hmap.
Qed.

Lemma total_of_sample_history :
  (∃ total,
     calculateTotalCo2 [pounds_and_kg_disagree; pounds_only_record] = Fin total ∧
     (total == Qsum [1.5; 2.25])%Q) ∧
  calculateTotalCo2 [pounds_and_kg_disagree; legacy_record] =
  calculateTotalCo2 [with_kg None pounds_and_kg_disagree; legacy_record].
Proof.
  destruct calculateTotalCo2_is_sum as (_ & Hexact & Hsame).
  split.
  - apply Hexact.
    + reflexivity.
    + repeat constructor; [exists 3, (-1) | exists 9, (-2)];
        (split; [reflexivity | split; [lia | reflexivity]]).
    + intros [|[|[|n]]];
        [exists 0, 0 | exists 3, (-1) | exists 15, (-2) | exists 15, (-2)];
        (split; [reflexivity | split; [lia | reflexivity]]).
  - apply Hsame. reflexivity.
Defined.

(** *** Levels *)

Lemma calculateLevel_finite (q : Q) :
  calculateLevel (Fin q) = Num.of_Z (Qfloor (q / 5) + 1).
Proof.
  unfold calculateLevel, Num.of_Z, Num.one.
  rewrite div_finite by reflexivity. simpl Num.floor.
  change (Num.of_Z ?a) with (Fin (inject_Z a)).
  rewrite (Qfloor_comp _ _ (Qred_correct _)).
  apply add_of_Z.
Qed.

Lemma level_bracket (q : Q) :
  let level := Qfloor (q / 5) + 1 in
  (inject_Z (5 * (level - 1)) <= q)%Q ∧ (q < inject_Z (5 * level))%Q.
Proof.
  intros level.
  pose proof (Qfloor_le (q / 5)) as Hle.
  pose proof (Qlt_floor (q / 5)) as Hlt. fold level in Hlt.
  replace (level - 1) with (Qfloor (q / 5)) by (unfold level; lia).
  rewrite !inject_Z_mult. change (inject_Z 5) with 5%Q.
  assert (q == 5 * (q / 5))%Q as Hq by field.
  set (x := (q / 5)%Q) in *. clearbody x.
  split; lra.
Qed.

Lemma calculateLevel_at_least_one (t : number) :
  (t >=? Num.zero)%num = true → (calculateLevel t >=? Num.one)%num = true.
Proof.
  destruct t as [|[]|q]; try discriminate; [reflexivity|].
  intros Hq%Qle_bool_iff. rewrite calculateLevel_finite.
  apply Qle_bool_iff. change 1%Q with (inject_Z 1). rewrite <- Zle_Qle.
  assert (Qfloor 0 <= Qfloor (q / 5)) as Hfloor.
  { apply Qfloor_resp_le. apply Qle_shift_div_l; [reflexivity|].
    by rewrite Qmult_0_l. }
  change (Qfloor 0) with 0 in Hfloor. lia.
Qed.

Example level_of_special_values :
  calculateLevel NaN = NaN ∧
  calculateLevel (Infinity false) = Infinity false ∧
  calculateLevel (Fin (-0.5)) = Num.of_Z 0.
Proof. repeat split. Qed.

(** C6: for every total [t], [calculateLevel t] is [floor (t / 5) + 1];
    for a finite [t] from 0 to below [2 ^ 53], where the quotient
    rounds to no other integer part, this is the integer [level] with
    [5 * (level - 1) <= t < 5 * level]; the level is at least 1 for
    every total that is not negative, zero included; and the levels of
    0, 5 and 4.999 are 1, 2 and 1. *)
Theorem calculateLevel_floor_plus_one :
  (∀ t, calculateLevel t = (Num.floor (t / Num.of_Z 5) + Num.one)%num) ∧
  (∀ q, (0 <= q)%Q → (q < inject_Z (2 ^ 53))%Q →
        let level := Qfloor (q / 5) + 1 in
        calculateLevel (Fin q) = Num.of_Z level ∧
        (inject_Z (5 * (level - 1)) <= q)%Q ∧ (q < inject_Z (5 * level))%Q) ∧
  (∀ t, (t >=? Num.zero)%num = true → (calculateLevel t >=? Num.one)%num = true) ∧
  calculateLevel (Num.of_Z 0) = Num.of_Z 1 ∧
  calculateLevel (Num.of_Z 5) = Num.of_Z 2 ∧
  calculateLevel (Fin 4.999) = Num.of_Z 1.
Proof.
  split; [reflexivity|].
  split; [intros q _ _ level; split; [apply calculateLevel_finite | apply level_bracket]|].
  split; [apply calculateLevel_at_least_one|].
  repeat split.
Qed.

Lemma level_of_twelve_point_three :
  (calculateLevel (Fin 12.3) >=? Num.one)%num = true ∧
  calculateLevel (Fin 12.3) = Num.of_Z 3 ∧
  (inject_Z (5 * (3 - 1)) <= 12.3)%Q ∧ (12.3 < inject_Z (5 * 3))%Q.
Proof.
  destruct calculateLevel_floor_plus_one as (_ & Hlevel & Hge & _).
  split; [apply Hge; reflexivity|].
  apply (Hlevel 12.3%Q); [discriminate | reflexivity].
Defined.

(** *** Badges *)

Lemma definition_of_with_earned t d : definition_of (with_earned t d) = d.
Proof. by destruct d. Qed.

Lemma with_earned_flag t d :
  earned (with_earned t d) = (t >=? def_threshold d)%num.
Proof. reflexivity. Qed.

Lemma calculateBadges_lookup t (i : nat) :
  calculateBadges t !! i = with_earned t <$> BADGE_DEFINITIONS !! i.
Proof. unfold calculateBadges. apply list_lookup_fmap. Qed.

Lemma calculateBadges_elem t b :
  b ∈ calculateBadges t ↔ ∃ d, d ∈ BADGE_DEFINITIONS ∧ b = with_earned t d.
Proof.
  unfold calculateBadges. rewrite list_elem_of_fmap.
  split; intros (d & H1 & H2); exists d; split; assumption.
Qed.

Example badges_of_special_totals :
  earned_names (calculateBadges Num.zero) = [] ∧
  earned_names (calculateBadges NaN) = [] ∧
  earned_names (calculateBadges (Infinity true)) = [] ∧
  earned_names (calculateBadges (Fin 49.99)) =
    ["Eco Starter"; "Eco Committed"; "Eco Champion"; "Eco Hero"]%string.
Proof. repeat split. Qed.

(** C7: for every total, each badge that [calculateBadges] returns is
    earned exactly when the total is at least the threshold of that
    badge; the badge at each position is built from the definition at
    that position alone, so that reordering the catalog reorders the
    result and changes no flag; at a total of 5 lb the badges earned are
    "Eco Starter" and "Eco Committed" and no other ("Eco Champion" is
    not); and a total of at least 100 lb, the highest threshold, earns
    every badge. *)
Theorem calculateBadges_earned_iff_threshold :
  (∀ t b, b ∈ calculateBadges t → earned b = (t >=? threshold b)%num) ∧
  (∀ t (i : nat), calculateBadges t !! i = with_earned t <$> BADGE_DEFINITIONS !! i) ∧
  (∀ t (defs defs' : list BadgeDefinition),
     defs ≡ₚ defs' → map (with_earned t) defs ≡ₚ map (with_earned t) defs') ∧
  earned_names (calculateBadges (Num.of_Z 5)) = ["Eco Starter"; "Eco Committed"]%string ∧
  (∀ t, (t >=? Num.of_Z 100)%num = true →
        Forall (λ b, earned b = true) (calculateBadges t)).
Proof.
  split.
  { intros t b (d & _ & ->)%calculateBadges_elem. reflexivity. }
  split; [apply calculateBadges_lookup|].
  split.
  { intros t defs defs' Hperm. by apply Permutation_map. }
  split; [reflexivity|].
  intros t Ht. unfold calculateBadges, BADGE_DEFINITIONS.
  repeat constructor; simpl; apply (geb_trans _ _ _ Ht); reflexivity.
Qed.

Lemma badges_of_250_pounds :
  Forall (λ b, earned b = true) (calculateBadges (Num.of_Z 250)) ∧
  (∀ b, b ∈ calculateBadges (Num.of_Z 250) →
        earned b = (Num.of_Z 250 >=? threshold b)%num).
Proof.
  destruct calculateBadges_earned_iff_threshold as (Hiff & _ & _ & _ & Hall).
  split.
  - apply Hall. reflexivity.
  - apply Hiff.
Defined.

(** C9: earning is monotone in the total: for all totals [t1 <= t2],
    every badge that [calculateBadges t1] marks as earned is marked as
    earned by [calculateBadges t2] as well. *)
Theorem calculateBadges_monotone (t1 t2 : number) :
  (t1 <=? t2)%num = true →
  ∀ b1, b1 ∈ calculateBadges t1 → earned b1 = true →
  ∃ b2, b2 ∈ calculateBadges t2 ∧
        definition_of b2 = definition_of b1 ∧ earned b2 = true.
Proof.
  intros Hle b1 (d & Hd & ->)%calculateBadges_elem Hearned.
  exists (with_earned t2 d). split.
  - apply calculateBadges_elem. by exists d.
  - split; [by rewrite !definition_of_with_earned|].
    rewrite with_earned_flag in *. by apply geb_trans with t1.
Qed.

Lemma committed_stays_earned :
  ∃ b2, b2 ∈ calculateBadges (Fin 7.5) ∧
        definition_of b2 =
        definition_of (with_earned (Num.of_Z 5)
                         (mkBadgeDefinition "committed" "Eco Committed"
                            "Save 5 lb of CO₂" "🌿" (Num.of_Z 5))) ∧
        earned b2 = true.
Proof.
  apply (calculateBadges_monotone (Num.of_Z 5) (Fin 7.5)).
  - reflexivity.
  - apply calculateBadges_elem. eexists. split; [|reflexivity].
    unfold BADGE_DEFINITIONS. right. left.
  - reflexivity.
Defined.

(** C10: for every total, be it zero, negative, infinite or [NaN],
    [calculateBadges] returns six badges, in the order of the catalog,
    and stripping the [earned] flag from them gives back the catalog:
    [id], [name], [description], [icon] and [threshold] are those of the
    definitions, and only [earned] depends on the total. *)
Theorem calculateBadges_frame (t : number) :
  length (calculateBadges t) = 6%nat ∧
  map definition_of (calculateBadges t) = BADGE_DEFINITIONS ∧
  map id (calculateBadges t) =
    ["starter"; "committed"; "champion"; "hero"; "legend"; "guardian"]%string ∧
  (∀ t', map definition_of (calculateBadges t') = map definition_of (calculateBadges t)).
Proof.
  assert (∀ t, map definition_of (calculateBadges t) = BADGE_DEFINITIONS) as Hdefs.
  { intros t0. unfold calculateBadges. rewrite map_map.
    rewrite <- (map_id BADGE_DEFINITIONS) at 2.
    apply map_ext, definition_of_with_earned. }
  split; [reflexivity|]. split; [apply Hdefs|]. split; [reflexivity|].
  intros t'. by rewrite !Hdefs.
Qed.

End GamificationFacts.

(** ** The streak *)

Module StreakFacts.
Import Gamification Streak Samples.

Section Facts.

Variable utcOffset : Z → Z.
Variable localMidnight : Z → Z.

(** Between two days that start at midnight, [diff] is the difference
    of the day numbers. *)
Lemma diff_days_plain (a b : Z) :
  starts_at_midnight utcOffset localMidnight a →
  starts_at_midnight utcOffset localMidnight b →
  diff_days utcOffset localMidnight a b = a - b.
Proof.
  unfold starts_at_midnight, diff_days, MILLISECONDS_A_MINUTE, MILLISECONDS_A_DAY.
  intros Ha Hb. cbv zeta.
  replace (localMidnight a - localMidnight b -
           (utcOffset (localMidnight b) - utcOffset (localMidnight a)) * 60000)
    with ((a - b) * 86400000) by lia.
  by apply Z.quot_mul.
Qed.

Lemma set_add_elem day s d : d ∈ set_add day s ↔ d ∈ s ∨ d = day.
Proof.
  unfold set_add. case_decide.
  - split; [auto | intros [?| ->]; assumption].
  - rewrite elem_of_app, list_elem_of_singleton. reflexivity.
Qed.

Lemma set_add_NoDup day s : NoDup s → NoDup (set_add day s).
Proof.
  intros Hs. unfold set_add. case_decide; [assumption|].
  apply NoDup_app. split; [assumption|]. split.
  - intros x Hx ->%list_elem_of_singleton. contradiction.
  - apply NoDup_singleton.
Qed.

Lemma collect_from_elem (l : list EcoActionRecord) (acc : list Z) d :
  d ∈ fold_left (λ activeDays a, set_add (dayKey utcOffset (ts a)) activeDays) l acc
  ↔ d ∈ acc ∨ ∃ a, a ∈ l ∧ dayKey utcOffset (ts a) = d.
Proof.
  revert acc. induction l as [|a l IH]; intros acc; simpl.
  - split; [auto | intros [?|(a & Ha & _)]; [assumption | inversion Ha]].
  - rewrite IH, set_add_elem. split.
    + intros [[?| ->]|(b & Hb & Hd)]; [by left | right | right].
      * exists a. split; [left | reflexivity].
      * exists b. split; [by right | assumption].
    + intros [?|(b & Hb & Hd)]; [by left; left|].
      apply elem_of_cons in Hb as [->|Hb].
      * left; right. by symmetry.
      * right. by exists b.
Qed.

Lemma collect_from_NoDup (l : list EcoActionRecord) (acc : list Z) :
  NoDup acc →
  NoDup (fold_left (λ activeDays a, set_add (dayKey utcOffset (ts a)) activeDays) l acc).
Proof.
  revert acc. induction l as [|a l IH]; intros acc Hacc; simpl; [assumption|].
  apply IH, set_add_NoDup, Hacc.
Qed.

Lemma collect_days_elem l d :
  d ∈ collect_days utcOffset l ↔ ∃ a, a ∈ l ∧ dayKey utcOffset (ts a) = d.
Proof.
  unfold collect_days. rewrite collect_from_elem. split; [|by right].
  intros [Hd|Hd]; [inversion Hd | assumption].
Qed.

Lemma collect_days_NoDup l : NoDup (collect_days utcOffset l).
Proof. apply collect_from_NoDup, NoDup_nil_2. Qed.

Lemma reverse_sorted_descending (l : list Z) :
  StronglySorted Z.le l → NoDup l → descending (reverse l).
Proof.
  unfold descending.
  induction 1 as [|x l Hl IH Hx]; intros Hnd.
  - constructor.
  - apply NoDup_cons in Hnd as [Hnotin Hnd].
    rewrite reverse_cons. apply StronglySorted_app_2.
    + intros x1 x2 Hx1 ->%list_elem_of_singleton.
      rewrite elem_of_reverse in Hx1.
      unfold flip. rewrite Forall_forall in Hx.
      specialize (Hx _ Hx1).
      assert (x ≠ x1) by (intros ->; contradiction). lia.
    + by apply IH.
    + repeat constructor.
Qed.

Lemma sortedDays_elem (actions : list EcoActionRecord) d :
  d ∈ sortedDays utcOffset actions ↔ active utcOffset actions d.
Proof.
  unfold sortedDays.
  rewrite elem_of_reverse, merge_sort_Permutation, collect_days_elem.
  unfold active. split; intros (a & Ha & Hd); exists a; split; try assumption.
  - by rewrite merge_sort_Permutation in Ha.
  - by rewrite merge_sort_Permutation.
Qed.

Lemma sortedDays_descending (actions : list EcoActionRecord) :
  descending (sortedDays utcOffset actions).
Proof.
  apply reverse_sorted_descending.
  - apply StronglySorted_merge_sort; apply _.
  - rewrite merge_sort_Permutation. apply collect_days_NoDup.
Qed.

Lemma descending_head_max first rest d :
  descending (first :: rest) → d ∈ first :: rest → d <= first.
Proof.
  intros [Hall _]%StronglySorted_cons [->|Hd]%elem_of_cons; [lia|].
  rewrite Forall_forall in Hall. specialize (Hall _ Hd). unfold flip in Hall. lia.
Qed.

(** The loop counts the run of consecutive days that starts at
    [currentDay]. *)
Lemma count_consecutive_run days : ∀ currentDay streak,
  descending (currentDay :: days) →
  Forall (starts_at_midnight utcOffset localMidnight) (currentDay :: days) →
  let r := count_consecutive utcOffset localMidnight currentDay days streak in
  streak <= r ∧
  (∀ i, 0 <= i <= r - streak → currentDay - i ∈ currentDay :: days) ∧
  currentDay - (r - streak) - 1 ∉ currentDay :: days.
Proof.
  induction days as [|previousDay rest IH];
    intros currentDay streak Hdesc Hplain; simpl.
  - split; [lia|]. split.
    + intros i Hi. replace (currentDay - i) with currentDay by lia. left.
    + intros Hin%list_elem_of_singleton. lia.
  - apply Forall_cons in Hplain as [Hcurrent Hplain].
    rewrite (diff_days_plain currentDay previousDay Hcurrent)
      by (by apply Forall_cons in Hplain as [? _]).
    pose proof Hdesc as [Hall Hdesc']%StronglySorted_cons.
    destruct (Z.eqb_spec (currentDay - previousDay) 1) as [Heq|Hne].
    + destruct (IH previousDay (streak + 1) Hdesc' Hplain) as (Hle & Hin & Hout).
      set (r := count_consecutive utcOffset localMidnight previousDay rest
                  (streak + 1)) in *.
      split; [lia|]. split.
      * intros i Hi. destruct (decide (i = 0)) as [->|Hi0].
        -- replace (currentDay - 0) with currentDay by lia. left.
        -- right. replace (currentDay - i) with (previousDay - (i - 1)) by lia.
           apply Hin. lia.
      * intros [Hcur|Hrest]%elem_of_cons; [lia|].
        apply Hout.
        by replace (previousDay - (r - (streak + 1)) - 1)
          with (currentDay - (r - streak) - 1) by lia.
    + split; [lia|]. split.
      * intros i Hi. replace (currentDay - i) with currentDay by lia. left.
      * replace (currentDay - (streak - streak) - 1) with (currentDay - 1) by lia.
        intros Hin.
        assert (currentDay - 1 <= previousDay)
          by (apply (descending_head_max previousDay rest); [assumption|];
              apply elem_of_cons in Hin as [?|?]; [lia | assumption]).
        apply Forall_cons in Hall as [Hlt _]. unfold flip in Hlt. lia.
Qed.

(** There is at most one contiguous run that ends at a given day. *)
Lemma contiguous_run_unique actions day n n' :
  contiguous_run utcOffset actions day n →
  contiguous_run utcOffset actions day n' → n = n'.
Proof.
  intros (Hn & Hin & Hout) (Hn' & Hin' & Hout').
  destruct (Z.lt_trichotomy n n') as [Hlt|[Heq|Hgt]]; [|assumption|].
  - exfalso. apply Hout, Hin'. lia.
  - exfalso. apply Hout', Hin. lia.
Qed.

Lemma most_recent_unique actions m m' :
  most_recent utcOffset actions m → most_recent utcOffset actions m' → m = m'.
Proof.
  intros [Ha Hmax] [Ha' Hmax']. specialize (Hmax _ Ha'). specialize (Hmax' _ Ha). lia.
Qed.

(** A history has no active day, or it has a most recent one. *)
Lemma most_recent_exists actions :
  (∀ d, ¬ active utcOffset actions d) ∨ ∃ m, most_recent utcOffset actions m.
Proof.
  pose proof (sortedDays_descending actions) as Hdesc.
  pose proof (sortedDays_elem actions) as Helem.
  destruct (sortedDays utcOffset actions) as [|first rest].
  - left. intros d Hd%Helem. inversion Hd.
  - right. exists first. split; [apply Helem; left|].
    intros d Hd%Helem. by apply (descending_head_max first rest).
Qed.

(** On a history of days that start at midnight, [calculateStreak], as
    it is embedded here, meets the specification. *)
Lemma calculateStreak_meets_spec now actions :
  (∀ d, active utcOffset actions d →
        starts_at_midnight utcOffset localMidnight d) →
  streak_spec utcOffset now actions
    (calculateStreak utcOffset localMidnight now actions).
Proof.
  intros Hplain.
  unfold calculateStreak, streak_spec.
  pose proof (sortedDays_elem actions) as Helem.
  pose proof (sortedDays_descending actions) as Hdesc.
  unfold sortedDays in Helem, Hdesc.
  destruct actions as [|a0 actions']; simpl length; cbn [Nat.eqb].
  { split; [reflexivity|]. intros m [(a & Ha & _) _]. inversion Ha. }
  set (actions := a0 :: actions') in *.
  destruct (reverse _) as [|first rest] eqn:Hdays.
  { split; [reflexivity|]. intros m [Hm _]. apply Helem in Hm. inversion Hm. }
  assert (Hfirst : most_recent utcOffset actions first).
  { split; [apply Helem; left|].
    intros d Hd%Helem. by apply (descending_head_max first rest). }
  split.
  { intros Hnone. exfalso. apply (Hnone first), Hfirst. }
  intros m Hm. rewrite (most_recent_unique _ _ _ Hm Hfirst). clear m Hm.
  cbv zeta. unfold subtract_day. split.
  - intros Ht Hy.
    destruct (Z.eqb_spec first (dayKey utcOffset now)); [contradiction|].
    destruct (Z.eqb_spec first (dayKey utcOffset now - 1)); [contradiction|].
    reflexivity.
  - intros Hor.
    assert (negb (first =? dayKey utcOffset now) &&
            negb (first =? dayKey utcOffset now - 1) = false) as ->.
    { destruct Hor as [->| ->]; rewrite Z.eqb_refl; simpl;
        [reflexivity | apply andb_false_r]. }
    assert (Forall (starts_at_midnight utcOffset localMidnight) (first :: rest))
      as Hdays_plain.
    { apply Forall_forall. intros d Hd. by apply Hplain, Helem. }
    destruct (count_consecutive_run rest first 1 Hdesc Hdays_plain)
      as (Hle & Hin & Hout).
    set (r := count_consecutive utcOffset localMidnight first rest 1) in *.
    split; [assumption|]. split.
    + intros i Hi. apply Helem, Hin. lia.
    + intros Hact%Helem. apply Hout.
      by replace (first - (r - 1) - 1) with (first - r) by lia.
Qed.

(** The specification determines the streak. *)
Lemma streak_spec_unique now actions s s' :
  streak_spec utcOffset now actions s → streak_spec utcOffset now actions s' → s = s'.
Proof.
  intros [Hnone Hsome] [Hnone' Hsome'].
  destruct (most_recent_exists actions) as [Hempty | [m Hm]].
  { by rewrite Hnone, Hnone'. }
  destruct (Hsome m Hm) as [Hbroken Hrun].
  destruct (Hsome' m Hm) as [Hbroken' Hrun'].
  destruct (decide (m = dayKey utcOffset now)) as [Ht|Ht].
  { apply (contiguous_run_unique actions m); auto. }
  destruct (decide (m = dayKey utcOffset now - 1)) as [Hy|Hy].
  { apply (contiguous_run_unique actions m); auto. }
  by rewrite Hbroken, Hbroken'.
Qed.

(** On a history of plain days (years of four digits, days that start
    at midnight), [calculateStreak] follows the algorithm of the
    specification, over the set of the local calendar days that hold a
    record: the streak is 0 when that set is empty; it is 0 when the
    most recent active day is neither today nor yesterday; otherwise it
    is the length of the contiguous run of active days that ends at the
    most recent one.  This determines the streak.  In particular a
    history that is active today, yesterday and three days ago, and on
    no other day, has streak 2. *)
Lemma calculateStreak_follows_spec_on_plain_days
    (now : Z) (actions : list EcoActionRecord) :
  plain_days utcOffset localMidnight actions →
  let today := dayKey utcOffset now in
  streak_spec utcOffset now actions
    (calculateStreak utcOffset localMidnight now actions) ∧
  (∀ s, streak_spec utcOffset now actions s →
        s = calculateStreak utcOffset localMidnight now actions) ∧
  ((∀ d, active utcOffset actions d ↔ d = today ∨ d = today - 1 ∨ d = today - 3) →
   calculateStreak utcOffset localMidnight now actions = 2).
Proof.
  intros Hplain today.
  assert (∀ d, active utcOffset actions d →
               starts_at_midnight utcOffset localMidnight d) as Hstarts.
  { intros d (a & Ha & <-). by apply Hplain. }
  pose proof (calculateStreak_meets_spec now actions Hstarts) as Hspec.
  split; [exact Hspec|]. split.
  { intros s Hs. by apply (streak_spec_unique now actions). }
  intros Hactive. destruct Hspec as [_ Hsome].
  assert (most_recent utcOffset actions today) as Htoday.
  { split; [apply Hactive; by left|].
    intros d Hd%Hactive. lia. }
  destruct (Hsome today Htoday) as [_ Hrun].
  destruct Hrun as (Hpos & Hin & Hout); [by left|].
  set (s := calculateStreak utcOffset localMidnight now actions) in *.
  assert (s < 3).
  { destruct (decide (s < 3)) as [|Hge]; [assumption|].
    assert (active utcOffset actions (today - 2)) as Hd%Hactive by (apply Hin; lia).
    lia. }
  assert (s ≠ 1).
  { intros Hs. apply Hout. rewrite Hs. apply Hactive. right; by left. }
  lia.
Qed.

End Facts.

Example streak_of_nothing : calculateStreak pacific pacific_midnight sample_now [] = 0.
Proof. reflexivity. Qed.

Example streak_with_gap :
  calculateStreak pacific pacific_midnight sample_now gap_history = 2.
Proof. reflexivity. Qed.

Example streak_broken_two_days_ago :
  calculateStreak pacific pacific_midnight sample_now
    [logged_at (sample_now - 48 * hour); logged_at (sample_now - 72 * hour)] = 0.
Proof. reflexivity. Qed.

Example streak_ending_yesterday :
  calculateStreak pacific pacific_midnight sample_now
    [logged_at (sample_now - 48 * hour); logged_at (sample_now - 24 * hour)] = 2.
Proof. reflexivity. Qed.

Example days_follow_the_local_clock :
  dayKey pacific sample_now = 19675 ∧
  dayKey (λ _, 0) sample_now = 19675 ∧
  dayKey (λ _, 120) sample_now = 19676.
Proof. repeat split. Qed.

Example every_day_starts_at_midnight_in_a_fixed_zone (day : Z) :
  starts_at_midnight pacific pacific_midnight day.
Proof.
  unfold starts_at_midnight, pacific, pacific_midnight,
    MILLISECONDS_A_MINUTE, MILLISECONDS_A_DAY. lia.
Qed.

(** In Santiago the clocks went from 00:00 to 01:00 on 3 September
    2023: that day starts at 01:00, 23 hours before the next one, and
    [diff] counts no day between the two. *)
Example santiago_skips_a_midnight :
  dayKey santiago (santiago_midnight 19603) = 19603 ∧
  ¬ starts_at_midnight santiago santiago_midnight 19603 ∧
  santiago_midnight 19604 - santiago_midnight 19603 = 23 * hour ∧
  diff_days santiago santiago_midnight 19603 19602 = 1 ∧
  diff_days santiago santiago_midnight 19604 19603 = 0.
Proof. repeat split. by vm_compute. Qed.

(** C1: [calculateStreak] does not count the days as the specification
    does where the clocks skip a midnight.  In Santiago, for a history
    with one record on each of 2, 3 and 4 September 2023, evaluated on
    4 September, the specification determines a streak of 3: the three
    days are consecutive calendar days that end today.  The code
    returns 1. *)
Theorem calculateStreak_across_skipped_midnight :
  map (dayKey santiago ∘ ts) september_history = [19602; 19603; 19604] ∧
  dayKey santiago september_now = 19604 ∧
  (∀ s, streak_spec santiago september_now september_history s ↔ s = 3) ∧
  calculateStreak santiago santiago_midnight september_now september_history = 1.
Proof.
  split; [reflexivity|]. split; [reflexivity|]. split; [|reflexivity].
  assert (∀ d, active santiago september_history d ↔
               d = 19604 ∨ d = 19603 ∨ d = 19602) as Hactive.
  { intros d. unfold active, september_history. split.
    - intros (a & Ha & <-).
      repeat (apply elem_of_cons in Ha as [->|Ha]); [vm_compute; lia .. | inversion Ha].
    - intros [->|[->| ->]].
      + exists (logged_at september_now). split; [do 2 right; left | reflexivity].
      + exists (logged_at (september_now - 24 * hour)).
        split; [right; left | reflexivity].
      + exists (logged_at (september_now - 47 * hour)).
        split; [left | reflexivity]. }
  assert (most_recent santiago september_history 19604) as Hrecent.
  { split; [apply Hactive; by left|]. intros d Hd%Hactive. lia. }
  assert (contiguous_run santiago september_history 19604 3) as Hrun.
  { split; [lia|]. split.
    - intros i Hi. apply Hactive. lia.
    - intros Hd%Hactive. lia. }
  intros s. split.
  - intros [_ Hsome]. destruct (Hsome _ Hrecent) as [_ Hs].
    apply (contiguous_run_unique santiago september_history 19604); [|exact Hrun].
    apply Hs. by left.
  - intros ->. split.
    + intros Hnone. exfalso. apply (Hnone 19604), Hactive. by left.
    + intros m Hm.
      rewrite (most_recent_unique santiago september_history _ _ Hm Hrecent).
      split; [intros Hne; by exfalso | intros _; exact Hrun].
Qed.

End StreakFacts.

(** ** Directions *)

Module DirectionsFacts.
Import Json Eff Directions Samples.

(** *** Polyline decoding *)

Lemma read_group_length units : ∀ shift result,
  (length (read_group units shift result).2 <= length units)%nat.
Proof.
  induction units as [|c rest IH]; intros shift result; simpl; [lia|].
  destruct (32 <=? c - 63); simpl; [|lia].
  specialize (IH (shift + 5) (bor result (shl (band (c - 63) 31) shift))). lia.
Qed.

(** A group takes at least one code unit when there is one. *)
Lemma read_group_consumes c rest shift result :
  (length (read_group (c :: rest) shift result).2 <= length rest)%nat.
Proof.
  simpl. destruct (32 <=? c - 63); simpl; [|lia]. apply read_group_length.
Qed.

(** With one unit of fuel per code unit the loop ends, and more fuel
    does not change what it returns. *)
Lemma decode_loop_enough fuel : ∀ units lat lng coordinates,
  (length units <= fuel)%nat →
  ∃ decoded,
    (∀ fuel', (length units <= fuel')%nat →
              decode_loop fuel' units lat lng coordinates = Some decoded) ∧
    (length decoded <= length coordinates + length units)%nat.
Proof.
  induction fuel as [|fuel IH]; intros units lat lng coordinates Hfuel.
  - destruct units; [|simpl in Hfuel; lia].
    exists coordinates. split; [by intros [|fuel'] | simpl; lia].
  - destruct units as [|c rest].
    { exists coordinates. split; [by intros [|fuel'] | simpl; lia]. }
    pose proof (read_group_consumes c rest 0 0) as Hlat.
    destruct (read_group (c :: rest) 0 0) as [result1 units1] eqn:Hread1.
    pose proof (read_group_length units1 0 0) as Hlng.
    destruct (read_group units1 0 0) as [result2 units2] eqn:Hread2.
    simpl in Hfuel, Hlat, Hlng.
    set (lat' := lat + delta result1). set (lng' := lng + delta result2).
    destruct (IH units2 lat' lng'
                (coordinates ++
                 [ {| latitude := (Num.of_Z lat' / Num.of_Z 100000)%num;
                      longitude := (Num.of_Z lng' / Num.of_Z 100000)%num |} ]))
      as (decoded & Hdecoded & Hlen); [lia|].
    exists decoded. split.
    + intros [|fuel'] Hfuel'; [simpl in Hfuel'; lia|].
      cbn [decode_loop]. rewrite Hread1, Hread2.
      apply Hdecoded. simpl in Hfuel'. lia.
    + rewrite length_app in Hlen. simpl in *. lia.
Qed.

Lemma length_code_units encoded : length (code_units encoded) = String.length encoded.
Proof.
  unfold code_units. rewrite length_map.
  induction encoded; simpl; [reflexivity | by f_equal].
Qed.

Example decode_three_points :
  decodePolyline "_p~iF~ps|U_ulLnnqC_mqNvxq`@" =
  Some [ {| latitude := Fin (Qred 38.5); longitude := Fin (Qred (-120.2)) |};
         {| latitude := Fin (Qred 40.7); longitude := Fin (Qred (-120.95)) |};
         {| latitude := Fin (Qred 43.252); longitude := Fin (Qred (-126.453)) |} ].
Proof. vm_compute. reflexivity. Qed.

Example decode_truncated :
  decodePolyline "_p~iF" =
  Some [ {| latitude := Fin (Qred 38.5); longitude := Num.zero |} ].
Proof. reflexivity. Qed.

Example shift_count_wraps : shl 31 35 = 248 ∧ shl 1 31 = - 2 ^ 31.
Proof. split; reflexivity. Qed.

(** C8: [decodePolyline] of the empty string is the empty sequence; for
    every string the decoding ends and returns a sequence of at most as
    many coordinates as the string has characters; and the decoding is
    deterministic and restartable: the result depends on the string
    alone, every run that is given enough fuel returns the same
    sequence, for strings as for arbitrary sequences of code units. *)
Theorem decodePolyline_total_deterministic :
  decodePolyline "" = Some [] ∧
  (∀ encoded, ∃ coordinates,
     decodePolyline encoded = Some coordinates ∧
     (length coordinates <= String.length encoded)%nat ∧
     ∀ fuel, (String.length encoded <= fuel)%nat →
             decode_units fuel (code_units encoded) = Some coordinates) ∧
  (∀ units, ∃ coordinates,
     ∀ fuel, (length units <= fuel)%nat → decode_units fuel units = Some coordinates).
Proof.
  assert (∀ units, ∃ coordinates,
            (∀ fuel, (length units <= fuel)%nat →
                     decode_units fuel units = Some coordinates) ∧
            (length coordinates <= length units)%nat) as Hunits.
  { intros units. unfold decode_units.
    destruct (decode_loop_enough (length units) units 0 0 [])
      as (decoded & Hdecoded & Hlen); [lia|].
    destruct units as [|c rest].
    - exists []. split; [reflexivity | simpl; lia].
    - exists decoded. split; [exact Hdecoded | exact Hlen]. }
  split; [reflexivity|]. split.
  - intros encoded. destruct (Hunits (code_units encoded)) as (coordinates & Hrun & Hlen).
    rewrite length_code_units in Hrun, Hlen.
    exists coordinates. split; [|split; [exact Hlen | exact Hrun]].
    unfold decodePolyline. by apply Hrun.
  - intros units. destruct (Hunits units) as (coordinates & Hrun & _).
    by exists coordinates.
Qed.

Lemma decode_twice_with_other_fuel :
  ∃ coordinates,
    decode_units 3 (code_units "??") = Some coordinates ∧
    decode_units 7 (code_units "??") = Some coordinates.
Proof.
  destruct decodePolyline_total_deterministic as (_ & _ & Hunits).
  destruct (Hunits (code_units "??")) as (coordinates & Hrun).
  exists coordinates. split; apply Hrun; simpl; lia.
Defined.

(** *** Route lookup *)

Local Open Scope string_scope.

Section Lookup.

Context `{Runtime}.



End Lookup.

Example route_of_two_legs :
  (@fetchRoute sample_runtime "key" two_legs sample_origin sample_destination
     walking []).1 =
  ok {| distance_mi := Fin (Qred (1.609 * 0.621371));
        polyline := VStr "_p~iF~ps|U";
        duration_s := VNum (Num.of_Z 300) |}.
Proof. reflexivity. Qed.

Example route_denied :
  @route_of_data sample_runtime
    (VObj [ ("status", VStr "REQUEST_DENIED"); ("routes", VArr []) ]) =
  throw (Error "Directions API: REQUEST_DENIED").
Proof. reflexivity. Qed.

Example route_without_legs :
  @route_of_data sample_runtime
    (VObj [ ("status", VStr "OK");
            ("routes", VArr [ VObj [ ("legs", VArr []);
                                     ("overview_polyline",
                                      VObj [("points", VStr "")]) ] ]) ]) =
  throw (TypeError "Cannot read properties of undefined").
Proof. reflexivity. Qed.


End DirectionsFacts.

(** ** The submission flow *)

Module TrackerFacts.
Import Json Eff Tracker Samples.

Local Open Scope string_scope.

Section Submission.

Context `{Runtime}.

(** Nothing is pushed when the estimation call throws, when the response
    has no readable estimate, or when the estimate does not convert to a
    finite number. *)
Lemma logAction_guard agent database userId now actionType distance w :
  let request := request_of userId actionType distance in
  let w' := (logAction agent database userId now actionType distance w).2 in
  (∀ e, agent request = throw e → pushed w' = pushed w) ∧
  (∀ response e, agent request = ok response →
                 get response "co2_saved_kg" = throw e → pushed w' = pushed w) ∧
  (∀ response field, agent request = ok response →
                     get response "co2_saved_kg" = ok field →
                     Num.isFinite (ToNumber field) = false → pushed w' = pushed w).
Proof.
  intros request w'. subst w'.
  unfold logAction, finally, try_catch, bind, getCo2Savings, setLoading, effect,
    lift, raise, alert.
  fold (request_of userId actionType distance). fold request.
  repeat split.
  - intros e Hagent. rewrite Hagent. reflexivity.
  - intros response e Hagent Hget. rewrite Hagent. simpl. rewrite Hget. reflexivity.
  - intros response field Hagent Hget Hnan. rewrite Hagent. simpl.
    rewrite Hget. simpl. rewrite Hnan. reflexivity.
Qed.

(** The estimates that are not numbers and that convert to a finite
    number all the same. *)
Lemma ToNumber_finite_for_non_numbers :
  ToNumber VNull = Num.zero ∧ ToNumber (VBool false) = Num.zero ∧
  ToNumber (VBool true) = Num.one.
Proof. repeat split. Qed.

Example missing_estimate_is_not_saved :
  (logAction (λ _, ok (VObj [("message", VStr "Thanks for recycling!")]))
     (λ _ _, true) "demo-user" 1700000000000 recycled Num.zero initial_world).2 =
  {| pushed := []; loading := false; alerts := ["❌ Cannot Calculate CO₂"];
     agent_calls := [request_of "demo-user" recycled Num.zero]; reloads := 0 |}.
Proof. reflexivity. Qed.

Example failing_agent_is_not_saved :
  (logAction (λ _, throw (Error "Request timed out after 10 seconds."))
     (λ _ _, true) "demo-user" 1700000000000 bike (Fin 2.5) initial_world).2 =
  {| pushed := []; loading := false; alerts := ["❌ Cannot Calculate CO₂"];
     agent_calls := [request_of "demo-user" bike (Fin 2.5)]; reloads := 0 |}.
Proof. reflexivity. Qed.

(** C3 does not hold of the code: when the agent answers with an
    estimate of [null], which is not a finite number, [Number(null)] is
    [0], the guard [Number.isFinite] lets it pass, and [logAction]
    pushes a record of zero kilograms instead of giving up before the
    persistence call. *)
Theorem logAction_saves_null_estimate (now : Z) :
  let agent : Agent := λ _, ok null_estimate in
  let database : Database := λ _ _, true in
  get null_estimate "co2_saved_kg" = ok VNull ∧
  logAction agent database "demo-user" now recycled Num.zero initial_world =
  (ok tt,
   {| pushed :=
        [ ("users/demo-user/actions",
           {| action := "recycled";
              distance_mi := Num.zero;
              co2_saved_kg := Num.zero;
              co2_saved_lb := Num.zero;
              message := VStr "Thanks for recycling!";
              agent_engine := VStr "asi_one";
              ts := now |}) ];
      loading := false;
      alerts := ["Success! 🌱"];
      agent_calls := [request_of "demo-user" recycled Num.zero];
      reloads := 1 |}).
Proof. split; reflexivity. Qed.

End Submission.

End TrackerFacts.

(** ** Sorting *)

Module ArraySortFacts.
Import ArraySort.

Section Sort.

Context {A : Type} (R : relation A) `{!RelDecision R}.

Lemma insert_by_Permutation (x : A) (l : list A) : insert_by R x l ≡ₚ x :: l.
Proof.
  induction l as [|y rest IH]; [reflexivity|]. cbn [insert_by].
  destruct (decide (R x y)); [reflexivity|].
  rewrite IH. apply Permutation_swap.
Qed.

Lemma sort_by_Permutation (l : list A) : sort_by R l ≡ₚ l.
Proof.
  induction l as [|x rest IH]; [reflexivity|].
  cbn [sort_by foldr]. rewrite insert_by_Permutation. by constructor.
Qed.

Lemma insert_by_sorted `{!Total R, !Transitive R} (x : A) (l : list A) :
  StronglySorted R l → StronglySorted R (insert_by R x l).
Proof.
  induction 1 as [|y rest Hrest IH Hy]; cbn [insert_by].
  - repeat constructor.
  - destruct (decide (R x y)) as [Hxy|Hxy].
    + constructor; [by constructor|].
      constructor; [exact Hxy|].
      eapply Forall_impl; [exact Hy|]. intros z Hz. by transitivity y.
    + constructor; [exact IH|].
      rewrite insert_by_Permutation. constructor; [|exact Hy].
      by destruct (total R x y).
Qed.

Lemma sort_by_sorted `{!Total R, !Transitive R} (l : list A) :
  StronglySorted R (sort_by R l).
Proof.
  induction l as [|x rest IH]; [constructor|].
  cbn [sort_by foldr]. by apply insert_by_sorted.
Qed.

End Sort.

End ArraySortFacts.

(** ** The statistics of a user *)

Module StatsFacts.
Import Gamification Streak Stats NumFacts GamificationFacts Samples.

Lemma sum_of_part_le (P : EcoActionRecord → Prop) `{∀ a, Decision (P a)}
    (l : list EcoActionRecord) : ∀ x y,
  Forall saves l → (x <= y)%Q →
  ∃ x' y',
    fold_left (λ sum a, (sum + actionCo2Lb a)%num) (filter P l) (Fin x) = Fin x' ∧
    fold_left (λ sum a, (sum + actionCo2Lb a)%num) l (Fin y) = Fin y' ∧
    (x' <= y')%Q.
Proof.
  induction l as [|a l IH]; intros x y Hl Hxy.
  - exists x, y. by repeat split.
  - apply Forall_cons in Hl as [(q & Hq & Hpos) Hl].
    rewrite filter_cons. simpl. rewrite Hq. simpl.
    case_decide.
    + simpl. rewrite Hq. simpl. apply IH; [assumption|].
      rewrite !Qred_correct. lra.
    + apply IH; [assumption|]. rewrite Qred_correct. lra.
Qed.

Section Clock.

Variable utcOffset : Z → Z.

Example today_of_gap_history :
  calculateTodayCo2 pacific sample_now gap_history = Fin (Qred 2.20462) ∧
  calculateTotalCo2 gap_history = Fin (Qred 4.40924).
Proof. split; reflexivity. Qed.

(** Today's savings never exceed the savings of all time: for every
    history whose reconciled values are finite and not negative, and at
    every instant, [calculateTodayCo2] is at most [calculateTotalCo2]. *)
Theorem today_at_most_total (now : Z) (actions : list EcoActionRecord) :
  Forall saves actions →
  (calculateTodayCo2 utcOffset now actions <=? calculateTotalCo2 actions)%num = true.
Proof.
  intros Hsaves. unfold calculateTodayCo2, calculateTotalCo2, reduce.
  change Num.zero with (Fin 0).
  destruct (sum_of_part_le
              (λ action, dayKey utcOffset (ts action) = dayKey utcOffset now)
              actions 0 0 Hsaves) as (x & y & -> & -> & Hxy); [lra|].
  by apply Qle_bool_iff.
Qed.

(** Only the records of today count for [calculateTodayCo2]: a record of
    another local day changes nothing, wherever it stands in the
    history; without a record of today the result is 0; and when every
    record is of today the result is [calculateTotalCo2]. *)
Theorem today_counts_today_only (now : Z) :
  let today := dayKey utcOffset now in
  (∀ before a after,
     dayKey utcOffset (ts a) ≠ today →
     calculateTodayCo2 utcOffset now (before ++ a :: after) =
     calculateTodayCo2 utcOffset now (before ++ after)) ∧
  (∀ actions,
     Forall (λ a, dayKey utcOffset (ts a) ≠ today) actions →
     calculateTodayCo2 utcOffset now actions = Num.zero) ∧
  (∀ actions,
     Forall (λ a, dayKey utcOffset (ts a) = today) actions →
     calculateTodayCo2 utcOffset now actions = calculateTotalCo2 actions).
Proof.
  intros today. unfold calculateTodayCo2. fold today. repeat split.
  - intros before a after Hday.
    rewrite !filter_app, filter_cons. by case_decide.
  - intros actions Hall. induction Hall as [|a l Ha Hl IH]; [reflexivity|].
    rewrite filter_cons. by case_decide.
  - intros actions Hall. unfold calculateTotalCo2. f_equal.
    induction Hall as [|a l Ha Hl IH]; [reflexivity|].
    rewrite filter_cons. case_decide; [by f_equal | contradiction].
Qed.

End Clock.

Lemma saves_logged_at t : saves (logged_at t).
Proof. exists 1.10231%Q. split; [reflexivity | discriminate]. Qed.

Lemma today_at_most_total_of_gap_history :
  (calculateTodayCo2 pacific sample_now gap_history <=?
   calculateTotalCo2 gap_history)%num = true.
Proof.
  apply (today_at_most_total pacific sample_now gap_history).
  repeat constructor; apply saves_logged_at.
Defined.

Lemma yesterday_does_not_count_today :
  calculateTodayCo2 pacific sample_now
    ([logged_at (sample_now - 1 * hour)] ++
     logged_at (sample_now - 24 * hour) :: [logged_at (sample_now - 3 * hour)]) =
  calculateTodayCo2 pacific sample_now
    ([logged_at (sample_now - 1 * hour)] ++ [logged_at (sample_now - 3 * hour)]).
Proof.
  apply (today_counts_today_only pacific sample_now). vm_compute. discriminate.
Defined.

(** *** Recent actions *)

#[local] Instance by_ts_desc_total : Total by_ts_desc.
Proof. intros a b. unfold by_ts_desc. lia. Qed.

#[local] Instance by_ts_desc_trans : Transitive by_ts_desc.
Proof. intros a b c. unfold by_ts_desc. lia. Qed.

Lemma slice_to_take {A : Type} (limit : Z) (l : list A) :
  0 <= limit → slice_to limit l = take (Z.to_nat limit) l.
Proof.
  intros Hlimit. unfold slice_to.
  destruct (Z.ltb_spec limit 0) as [|_]; [lia|].
  destruct (Z.le_gt_cases limit (Z.of_nat (length l))) as [Hle|Hgt].
  - by rewrite Z.min_l.
  - rewrite Z.min_r by lia. rewrite Nat2Z.id.
    rewrite !take_ge; [reflexivity | lia | lia].
Qed.

Example recent_two_of_gap_history :
  map ts (getRecentActions (Snapshot gap_history) (Some 2)) =
  [sample_now - 1 * hour; sample_now - 3 * hour].
Proof. reflexivity. Qed.

Example recent_with_negative_limit :
  map ts (getRecentActions (Snapshot gap_history) (Some (-3))) = [sample_now - 1 * hour].
Proof. reflexivity. Qed.

(** [getRecentActions] returns the [limit] most recent actions: for a
    limit that is not negative, the result holds [limit] records, or the
    whole history when that is shorter, from the newest on, and no
    record that it leaves out is newer than one that it returns.  When
    the database fails it returns no record. *)
Theorem getRecentActions_most_recent (actions : list EcoActionRecord) (limit : Z) :
  0 <= limit →
  let recent := getRecentActions (Snapshot actions) (Some limit) in
  length recent = Nat.min (Z.to_nat limit) (length actions) ∧
  StronglySorted by_ts_desc recent ∧
  (∃ older, recent ++ older ≡ₚ actions ∧
            ∀ r o, r ∈ recent → o ∈ older → ts o <= ts r) ∧
  getRecentActions GetRejects (Some limit) = [].
Proof.
  intros Hlimit recent. subst recent. unfold getRecentActions. simpl default.
  rewrite slice_to_take by assumption.
  pose proof (ArraySortFacts.sort_by_sorted by_ts_desc actions) as Hsorted.
  pose proof (ArraySortFacts.sort_by_Permutation by_ts_desc actions) as Hperm.
  set (sorted := ArraySort.sort_by by_ts_desc actions) in *.
  rewrite <- (take_drop (Z.to_nat limit) sorted) in Hsorted, Hperm.
  split; [by rewrite length_take, <- (Permutation_length Hperm), take_drop|].
  split; [by apply StronglySorted_app_1_l in Hsorted|].
  split; [|reflexivity].
  exists (drop (Z.to_nat limit) sorted). split; [assumption|].
  intros r o Hr Ho.
  apply (StronglySorted_app_1_elem_of _ _ _ r o Hsorted Hr Ho).
Qed.

Lemma recent_five_of_gap_history :
  length (getRecentActions (Snapshot gap_history) (Some 5)) =
  Nat.min (Z.to_nat 5) (length gap_history).
Proof.
  apply (getRecentActions_most_recent gap_history 5). lia.
Defined.

(** *** The statistics as a whole *)

(** [getUserStats] has no failure of its own: when the database fails
    it returns the statistics of the empty history. *)
Example getUserStats_without_history (utcOffset localMidnight : Z → Z) (now : Z) :
  let stats := getUserStats utcOffset localMidnight now GetRejects in
  stats = getUserStats utcOffset localMidnight now (Snapshot []) ∧
  totalCo2Saved stats = Num.of_Z 0 ∧
  todayCo2Saved stats = Num.of_Z 0 ∧
  streak stats = 0 ∧
  level stats = Num.of_Z 1 ∧
  map definition_of (badges stats) = BADGE_DEFINITIONS ∧
  Forall (λ b, earned b = false) (badges stats).
Proof. repeat split; repeat constructor. Qed.

(** *** Levels and badges *)

Lemma Qfloor_ge (k : Z) (x : Q) : k <= Qfloor x ↔ (inject_Z k <= x)%Q.
Proof.
  split.
  - intros Hk. apply Qle_trans with (inject_Z (Qfloor x)); [|apply Qfloor_le].
    by rewrite <- Zle_Qle.
  - intros Hk. rewrite <- (Qfloor_Z k). by apply Qfloor_resp_le.
Qed.

Lemma Qfloor_unique (n : Z) (x : Q) :
  (inject_Z n <= x)%Q → (x < inject_Z (n + 1))%Q → Qfloor x = n.
Proof.
  intros Hle Hlt. apply Z.le_antisymm; [|by apply Qfloor_ge].
  apply Z.lt_succ_r. rewrite Zlt_Qlt.
  apply Qle_lt_trans with x; [apply Qfloor_le | exact Hlt].
Qed.

Lemma calculateLevel_infinite s : calculateLevel (Infinity s) = Infinity s.
Proof. by destruct s. Qed.

Example levels_of_the_thresholds :
  map (λ d, calculateLevel (def_threshold d)) BADGE_DEFINITIONS =
  map Num.of_Z [1; 2; 3; 6; 11; 21].
Proof. reflexivity. Qed.

(** Levels and badges agree: for every total, finite or not, a badge
    whose threshold is [5 * k] pounds, for an integer [k], is earned
    exactly when the level is at least [k + 1].  So the badges of 5, 10,
    25, 50 and 100 lb come with the levels 2, 3, 6, 11 and 21. *)
Theorem badge_of_five_k_earned_at_level (t : number) (k : Z) (b : Badge) :
  b ∈ calculateBadges t →
  threshold b = Num.of_Z (5 * k) →
  earned b = (calculateLevel t >=? Num.of_Z (k + 1))%num.
Proof.
  intros (d & _ & ->)%calculateBadges_elem Hth. simpl in Hth.
  rewrite with_earned_flag, Hth. clear d Hth.
  destruct t as [|s|q].
  - reflexivity.
  - rewrite calculateLevel_infinite. reflexivity.
  - rewrite calculateLevel_finite. unfold Num.of_Z. cbn [Num.geb].
    apply eq_true_iff_eq. rewrite !Qle_bool_iff, <- Zle_Qle.
    rewrite <- Z.add_le_mono_r, Qfloor_ge, inject_Z_mult.
    change (inject_Z 5) with 5%Q.
    assert (q == 5 * (q / 5))%Q as Hq by field.
    set (x := (q / 5)%Q) in *. clearbody x.
    split; lra.
Qed.

Lemma hero_earned_at_level_six :
  earned (with_earned (Fin 27.5)
            (mkBadgeDefinition "hero" "Eco Hero" "Save 25 lb of CO₂" "⭐" (Num.of_Z 25))) =
  (calculateLevel (Fin 27.5) >=? Num.of_Z (5 + 1))%num.
Proof.
  apply (badge_of_five_k_earned_at_level (Fin 27.5) 5).
  - apply calculateBadges_elem. eexists. split; [|reflexivity].
    unfold BADGE_DEFINITIONS. do 3 right. left.
  - reflexivity.
Defined.

(** The level never goes down when the total goes up, and five more
    pounds are one more level: [calculateLevel] is monotone in the
    total, and for a finite total [t] that is not negative the level of
    [t + 5] is the level of [t] plus 1, as long as [t + 5] is below
    [2 ^ 53] and is a number that binary64 holds exactly, so that the
    addition does not round. *)
Theorem calculateLevel_monotone_steps :
  (∀ t1 t2, (t1 <=? t2)%num = true →
            (calculateLevel t1 <=? calculateLevel t2)%num = true) ∧
  (∀ q, (0 <= q)%Q → (q + 5 < inject_Z (2 ^ 53))%Q → Num.binary64 (q + 5) →
        calculateLevel (Fin q + Num.of_Z 5)%num =
        (calculateLevel (Fin q) + Num.one)%num).
Proof.
  split.
  - intros t1 t2. unfold Num.leb.
    destruct t1 as [|s1|q1], t2 as [|s2|q2];
      rewrite ?calculateLevel_infinite, ?calculateLevel_finite; try done.
    unfold Num.of_Z. cbn [Num.geb]. rewrite !Qle_bool_iff, <- Zle_Qle.
    intros Hq. apply Z.add_le_mono_r, Qfloor_resp_le.
    apply Qmult_le_compat_r; [assumption | discriminate].
  - intros q _ _ _.
    change (Fin q + Num.of_Z 5)%num with (Fin (Qred (q + inject_Z 5))).
    rewrite !calculateLevel_finite.
    change Num.one with (Num.of_Z 1). rewrite add_of_Z. f_equal. f_equal.
    apply Qfloor_unique.
    + rewrite (Qred_correct (q + inject_Z 5)), inject_Z_plus.
      pose proof (Qfloor_le (q / 5)). change (inject_Z 5) with 5%Q.
      change (inject_Z 1) with 1%Q.
      assert (q == 5 * (q / 5))%Q as Hq by field.
      assert ((q + 5) / 5 == q / 5 + 1)%Q as -> by field.
      lra.
    + rewrite (Qred_correct (q + inject_Z 5)).
      pose proof (Qlt_floor (q / 5)) as Hlt.
      rewrite !inject_Z_plus in *. change (inject_Z 5) with 5%Q.
      change (inject_Z 1) with 1%Q in *.
      assert ((q + 5) / 5 == q / 5 + 1)%Q as -> by field.
      lra.
Qed.

Lemma level_of_three_then_eight :
  (calculateLevel (Num.of_Z 3) <=? calculateLevel (Num.of_Z 8))%num = true ∧
  calculateLevel (Fin 3 + Num.of_Z 5)%num = (calculateLevel (Fin 3) + Num.one)%num.
Proof.
  destruct calculateLevel_monotone_steps as [Hmonotone Hstep].
  split; [apply Hmonotone; reflexivity|].
  apply (Hstep 3%Q); [discriminate | reflexivity|].
  exists 1, 3. split; [reflexivity | split; [lia | reflexivity]].
Defined.

End StatsFacts.

(** ** More on the streak *)

Module StreakBounds.
Import Gamification Streak StreakFacts Samples.

Section Facts.

Variable utcOffset : Z → Z.
Variable localMidnight : Z → Z.

Lemma count_consecutive_bounds days : ∀ currentDay streak,
  streak <= count_consecutive utcOffset localMidnight currentDay days streak
         <= streak + Z.of_nat (length days).
Proof.
  induction days as [|previousDay rest IH]; intros currentDay streak; simpl; [lia|].
  destruct (diff_days utcOffset localMidnight currentDay previousDay =? 1); [|lia].
  specialize (IH previousDay (streak + 1)). lia.
Qed.

Lemma length_set_add day s : (length (set_add day s) <= S (length s))%nat.
Proof.
  unfold set_add. case_decide; [lia|]. rewrite length_app. simpl. lia.
Qed.

Lemma length_collect_from (l : list EcoActionRecord) : ∀ acc,
  (length (fold_left (λ activeDays a, set_add (dayKey utcOffset (ts a)) activeDays)
             l acc) <= length acc + length l)%nat.
Proof.
  induction l as [|a l IH]; intros acc; simpl; [lia|].
  specialize (IH (set_add (dayKey utcOffset (ts a)) acc)).
  pose proof (length_set_add (dayKey utcOffset (ts a)) acc). lia.
Qed.

Lemma length_sortedDays actions :
  (length (sortedDays utcOffset actions) <= length actions)%nat.
Proof.
  unfold sortedDays.
  rewrite length_reverse, (Permutation_length (merge_sort_Permutation _ _)).
  unfold collect_days.
  pose proof (length_collect_from (merge_sort by_ts_desc actions) []) as Hlen.
  rewrite (Permutation_length (merge_sort_Permutation _ actions)) in Hlen.
  simpl in Hlen. lia.
Qed.

(** The streak, read off the sorted days. *)
Lemma calculateStreak_by_days (now : Z) (actions : list EcoActionRecord) :
  calculateStreak utcOffset localMidnight now actions =
  match sortedDays utcOffset actions with
  | [] => 0
  | first :: rest =>
      if negb (first =? dayKey utcOffset now) &&
         negb (first =? subtract_day (dayKey utcOffset now))
      then 0
      else count_consecutive utcOffset localMidnight first rest 1
  end.
Proof. by destruct actions. Qed.

Lemma streak_within_bounds (now : Z) (actions : list EcoActionRecord) :
  0 <= calculateStreak utcOffset localMidnight now actions
    <= Z.of_nat (length actions).
Proof.
  pose proof (length_sortedDays actions) as Hlen.
  rewrite calculateStreak_by_days.
  destruct (sortedDays utcOffset actions) as [|first rest]; [lia|].
  destruct (negb _ && negb _); [lia|].
  pose proof (count_consecutive_bounds rest first 1). simpl in Hlen. lia.
Qed.

(** The streak is a count of days of the history: for every history and
    every instant it is at least 0 and at most the number of records. *)
Theorem calculateStreak_bounds (now : Z) (actions : list EcoActionRecord) :
  0 <= calculateStreak utcOffset localMidnight now actions
    <= Z.of_nat (length actions).
Proof.
  pose proof (length_sortedDays actions) as Hlen.
  unfold calculateStreak, sortedDays in *.
  destruct (length actions =? 0)%nat; [lia|].
  destruct (reverse _) as [|first rest]; [lia|].
  destruct (negb _ && negb _); [lia|].
  pose proof (count_consecutive_bounds rest first 1). simpl in Hlen. lia.
Qed.

Lemma streak_zero_later (now : Z) (actions : list EcoActionRecord) a :
  a ∈ actions →
  dayKey utcOffset now < dayKey utcOffset (ts a) →
  calculateStreak utcOffset localMidnight now actions = 0.
Proof.
  intros Ha Hlater. rewrite calculateStreak_by_days.
  pose proof (sortedDays_elem utcOffset actions) as Helem.
  pose proof (sortedDays_descending utcOffset actions) as Hdesc.
  destruct (sortedDays utcOffset actions) as [|first rest]; [reflexivity|].
  assert (dayKey utcOffset (ts a) <= first) as Hfirst.
  { apply (descending_head_max first rest); [exact Hdesc|].
    apply Helem. by exists a. }
  unfold subtract_day.
  destruct (Z.eqb_spec first (dayKey utcOffset now)); [lia|].
  destruct (Z.eqb_spec first (dayKey utcOffset now - 1)); [lia|].
  reflexivity.
Qed.

(** A record of a later day than today, as a clock that was set forward
    leaves one, brings the streak to 0, whatever else the history holds,
    as long as the days of the history have years of four digits (the
    code finds the most recent day by sorting the strings of the
    days). *)
Theorem calculateStreak_zero_with_later_day (now : Z) (actions : list EcoActionRecord) a :
  (∀ b, b ∈ actions → four_digit_year (dayKey utcOffset (ts b))) →
  a ∈ actions →
  dayKey utcOffset now < dayKey utcOffset (ts a) →
  calculateStreak utcOffset localMidnight now actions = 0.
Proof.
  intros _ Ha Hlater. rewrite calculateStreak_by_days.
  pose proof (sortedDays_elem utcOffset actions) as Helem.
  pose proof (sortedDays_descending utcOffset actions) as Hdesc.
  destruct (sortedDays utcOffset actions) as [|first rest]; [reflexivity|].
  assert (dayKey utcOffset (ts a) <= first) as Hfirst.
  { apply (descending_head_max first rest); [exact Hdesc|].
    apply Helem. by exists a. }
  unfold subtract_day.
  destruct (Z.eqb_spec first (dayKey utcOffset now)); [lia|].
  destruct (Z.eqb_spec first (dayKey utcOffset now - 1)); [lia|].
  reflexivity.
Qed.


(** The specification of the streak reads the history through its
    active days only. *)
Lemma streak_spec_same_days now actions actions' s :
  (∀ d, active utcOffset actions d ↔ active utcOffset actions' d) →
  streak_spec utcOffset now actions s → streak_spec utcOffset now actions' s.
Proof.
  intros Hsame [Hnone Hsome]. split.
  - intros Hnone'. apply Hnone. intros d Hd%Hsame. by apply (Hnone' d).
  - intros m [Hm Hmax].
    assert (most_recent utcOffset actions m) as Hrecent.
    { split; [by apply Hsame|]. intros d Hd%Hsame. by apply Hmax. }
    destruct (Hsome m Hrecent) as [Hbroken Hrun]. split; [exact Hbroken|].
    intros Hor. destruct (Hrun Hor) as (Hpos & Hin & Hout).
    split; [exact Hpos|]. split.
    + intros i Hi. by apply Hsame, Hin.
    + intros Hd%Hsame. by apply Hout.
Qed.

(** Logging an action today never costs a streak on a history of plain
    days: when every record, the new one included, is of a day with a
    year of four digits that starts at midnight on the local clock,
    adding a record of today, at any place, gives a streak that is at
    least the streak before. *)
Theorem calculateStreak_not_lowered_by_today
    (now : Z) (before after : list EcoActionRecord) a :
  plain_days utcOffset localMidnight (before ++ a :: after) →
  dayKey utcOffset (ts a) = dayKey utcOffset now →
  calculateStreak utcOffset localMidnight now (before ++ after) <=
  calculateStreak utcOffset localMidnight now (before ++ a :: after).
Proof.
  intros Hplain Htoday.
  set (today := dayKey utcOffset now) in *.
  set (old := before ++ after). set (new := before ++ a :: after).
  assert (∀ d, active utcOffset new d ↔ active utcOffset old d ∨ d = today) as Hdays.
  { intros d. unfold active, new, old. split.
    - intros (b & Hb & Hd). rewrite elem_of_app, elem_of_cons in Hb.
      destruct Hb as [Hb|[->|Hb]]; [left | right; congruence | left];
        exists b; (split; [|exact Hd]); rewrite elem_of_app; tauto.
    - intros [(b & Hb & Hd) | ->].
      + exists b. split; [|exact Hd].
        rewrite elem_of_app in Hb. rewrite elem_of_app, elem_of_cons. tauto.
      + exists a. split; [|exact Htoday].
        rewrite elem_of_app, elem_of_cons. tauto. }
  assert (∀ d, active utcOffset new d →
               starts_at_midnight utcOffset localMidnight d) as Hnew_plain.
  { intros d (b & Hb & <-). by apply Hplain. }
  assert (∀ d, active utcOffset old d →
               starts_at_midnight utcOffset localMidnight d) as Hold_plain.
  { intros d Hd. apply Hnew_plain, Hdays. by left. }
  pose proof (streak_within_bounds now new) as [Hnew _].
  pose proof (calculateStreak_meets_spec utcOffset localMidnight now old Hold_plain)
    as Hold.
  pose proof (calculateStreak_meets_spec utcOffset localMidnight now new Hnew_plain)
    as Hspec.
  destruct (most_recent_exists utcOffset old) as [Hnone | [m Hm]].
  { destruct Hold as [Hzero _]. rewrite (Hzero Hnone). exact Hnew. }
  destruct (Z.lt_trichotomy m today) as [Hlt | [-> | Hgt]].
  - (* the last active day was before today *)
    assert (most_recent utcOffset new today) as Htop.
    { split; [apply Hdays; by right|].
      intros d [Hd| ->]%Hdays; [|lia]. destruct Hm as [_ Hmax].
      specialize (Hmax d Hd). lia. }
    destruct Hold as [_ Hold]. destruct (Hold m Hm) as [Hbroken Hrun].
    destruct Hspec as [_ Hspec]. destruct (Hspec today Htop) as [_ Hrun'].
    destruct Hrun' as (Hpos' & Hin' & Hout'); [by left|].
    destruct (decide (m = today - 1)) as [->|Hne].
    + destruct Hrun as (Hpos & Hin & Hout); [by right|].
      fold today in Hin, Hout.
      set (s := calculateStreak utcOffset localMidnight now old) in *.
      set (s' := calculateStreak utcOffset localMidnight now new) in *.
      destruct (Z.le_gt_cases s s') as [|Hless]; [assumption|]. exfalso.
      apply Hout'. apply Hdays. left.
      replace (today - s') with (today - 1 - (s' - 1)) by lia.
      apply Hin. lia.
    + rewrite Hbroken; [exact Hnew | fold today; lia | fold today; lia].
  - (* today was active already *)
    apply Z.eq_le_incl. apply (streak_spec_unique utcOffset now new); [|exact Hspec].
    apply (streak_spec_same_days now old new); [|exact Hold].
    intros d. rewrite Hdays. split; [by left|]. intros [Hd| ->]; [exact Hd | apply Hm].
  - (* a later day is active *)
    destruct Hm as [(b & Hb & Hday) _].
    rewrite (streak_zero_later now old b); [exact Hnew | exact Hb |].
    fold today. lia.
Qed.

End Facts.

Example streak_lost_to_a_later_day :
  calculateStreak pacific pacific_midnight sample_now
    (logged_at (sample_now + 24 * hour) :: gap_history) = 0.
Proof. reflexivity. Qed.

(** In Santiago, on 4 September 2023, the record of the day lowers the
    streak from 2 to 1: the day before does not start at midnight. *)
Example streak_lowered_after_a_skipped_midnight :
  calculateStreak santiago santiago_midnight september_now
    [logged_at (september_now - 47 * hour); logged_at (september_now - 24 * hour)] = 2 ∧
  calculateStreak santiago santiago_midnight september_now september_history = 1.
Proof. split; reflexivity. Qed.

Lemma streak_of_gap_history_bounded :
  0 <= calculateStreak pacific pacific_midnight sample_now gap_history
    <= Z.of_nat (length gap_history).
Proof.
  exact (calculateStreak_bounds pacific pacific_midnight sample_now gap_history).
Defined.

Lemma streak_zero_after_clock_set_forward :
  calculateStreak pacific pacific_midnight sample_now
    (logged_at (sample_now + 24 * hour) :: gap_history) = 0.
Proof.
  apply (calculateStreak_zero_with_later_day pacific pacific_midnight sample_now _
           (logged_at (sample_now + 24 * hour))).
  - intros b Hb. unfold gap_history in Hb.
    repeat (apply elem_of_cons in Hb as [->|Hb]);
      [vm_compute; split; discriminate .. | inversion Hb].
  - left.
  - vm_compute. reflexivity.
Defined.


Lemma streak_kept_by_logging_now :
  calculateStreak pacific pacific_midnight sample_now
    ([logged_at (sample_now - 24 * hour)] ++ []) <=
  calculateStreak pacific pacific_midnight sample_now
    ([logged_at (sample_now - 24 * hour)] ++ logged_at sample_now :: []).
Proof.
  apply (calculateStreak_not_lowered_by_today pacific pacific_midnight sample_now).
  - intros b Hb.
    repeat (apply elem_of_cons in Hb as [->|Hb]);
      [(split; [vm_compute; split; discriminate | vm_compute; reflexivity]) ..
      | inversion Hb].
  - reflexivity.
Defined.

End StreakBounds.

(** ** More on the submission flow *)

Module SubmissionFacts.
Import Json Eff Tracker Samples MoreSamples.

Local Open Scope string_scope.

Section Submission.

Context `{Runtime}.

(** The two ways in which [logAction] ends: nothing is pushed, the
    failure is shown and nothing is reloaded; or one record is pushed,
    success is shown and the statistics are reloaded. *)
Lemma logAction_cases agent database userId now actionType distance w :
  let request := request_of userId actionType distance in
  let path := "users/" ++ userId ++ "/actions" in
  let outcome := logAction agent database userId now actionType distance w in
  outcome =
    (ok tt,
     {| pushed := pushed w; loading := false;
        alerts := (alerts w ++ ["❌ Cannot Calculate CO₂"])%list;
        agent_calls := (agent_calls w ++ [request])%list;
        reloads := reloads w |}) ∨
  ∃ response field message agent_meta engine,
    agent request = ok response ∧
    get response "co2_saved_kg" = ok field ∧
    Num.isFinite (ToNumber field) = true ∧
    get response "message" = ok message ∧
    get response "agent_meta" = ok agent_meta ∧
    get_optional agent_meta "engine" = ok engine ∧
    let record :=
      {| action := agent_action actionType;
         distance_mi := distance;
         co2_saved_kg := ToNumber field;
         co2_saved_lb := (ToNumber field * KG_TO_LB)%num;
         message := message;
         agent_engine := or_else engine (VStr "unknown");
         ts := now |} in
    database path record = true ∧
    outcome =
      (ok tt,
       {| pushed := (pushed w ++ [(path, record)])%list; loading := false;
          alerts := (alerts w ++ ["Success! 🌱"])%list;
          agent_calls := (agent_calls w ++ [request])%list;
          reloads := S (reloads w) |}).
Proof.
  intros request path outcome. subst outcome.
  unfold logAction, finally, try_catch, bind, getCo2Savings, setLoading, effect,
    lift, raise, alert, push, loadData.
  fold (request_of userId actionType distance). fold request. fold path.
  destruct (agent request) as [e|response] eqn:Hagent; simpl; [by left|].
  destruct (get response "co2_saved_kg") as [e|field] eqn:Hfield; simpl; [by left|].
  destruct (Num.isFinite (ToNumber field)) eqn:Hfinite; simpl; [|by left].
  destruct (get response "message") as [e|message] eqn:Hmessage; simpl; [by left|].
  destruct (get response "agent_meta") as [e|agent_meta] eqn:Hmeta; simpl; [by left|].
  destruct (get_optional agent_meta "engine") as [e|engine] eqn:Hengine; simpl;
    [by left|].
  match goal with |- context [database path ?r] =>
    destruct (database path r) eqn:Hpush end; simpl; [|by left].
  right. exists response, field, message, agent_meta, engine.
  repeat (split; [assumption || reflexivity|]). reflexivity.
Qed.



(** Every record that [logAction] pushes is sound: its kilograms are a
    finite number, its pounds are the kilograms times 2.20462, and it
    carries the action, the distance and the instant of the call. *)
Theorem logAction_pushes_sound_record
    agent database userId now actionType distance (w : World) :
  let w' := (logAction agent database userId now actionType distance w).2 in
  ∀ entry, entry ∈ pushed w' →
    entry ∈ pushed w ∨
    (entry.1 = "users/" ++ userId ++ "/actions" ∧
     Num.isFinite (co2_saved_kg entry.2) = true ∧
     co2_saved_lb entry.2 = (co2_saved_kg entry.2 * KG_TO_LB)%num ∧
     action entry.2 = agent_action actionType ∧
     distance_mi entry.2 = distance ∧
     ts entry.2 = now).
Proof.
  intros w' entry. subst w'.
  destruct (logAction_cases agent database userId now actionType distance w)
    as [-> | (response & field & message & agent_meta & engine & _ & _ & Hfinite & _ & _ & _ & _ & ->)];
    simpl; [by left|].
  intros [Hold | ->%list_elem_of_singleton]%elem_of_app; [by left | right].
  by repeat split.
Qed.

End Submission.

Lemma a_pushed_record_is_sound :
  let entry :=
    ("users/demo-user/actions",
     {| action := "recycled"; distance_mi := Num.zero;
        co2_saved_kg := Fin 0.8; co2_saved_lb := Fin (Qred (0.8 * 2.20462));
        message := VStr "Recycling saves energy."; agent_engine := VStr "unknown";
        ts := 1700000000000 |}) in
  entry ∈ pushed initial_world ∨
  (entry.1 = "users/" ++ "demo-user" ++ "/actions" ∧
   Num.isFinite (co2_saved_kg entry.2) = true ∧
   co2_saved_lb entry.2 = (co2_saved_kg entry.2 * KG_TO_LB)%num ∧
   action entry.2 = agent_action recycled ∧
   distance_mi entry.2 = Num.zero ∧
   ts entry.2 = 1700000000000).
Proof.
  apply (@logAction_pushes_sound_record sample_runtime (λ _, ok finite_estimate)
           (λ _ _, true) "demo-user" 1700000000000 recycled Num.zero initial_world).
  vm_compute. left.
Defined.

(** *** What is saved is what is counted *)

Section Counting.

Context `{Runtime}.

Import Gamification Stats.

(** An action that was saved counts for what the success alert says:
    when [logAction] pushes a record, then for every history to which
    that record is added as its last one, the total, and the total of
    today as long as the day of the call lasts, go up by the pounds of
    the record, which are its kilograms, a finite number, times
    2.20462. *)
Theorem saved_action_counts
    agent database userId now actionType distance (w : World)
    (stored : StoredAction) (r : EcoActionRecord)
    (history : list EcoActionRecord) (utcOffset : Z → Z) (later : Z) :
  pushed (logAction agent database userId now actionType distance w).2 =
    (pushed w ++ [(("users/" ++ userId ++ "/actions")%string, stored)])%list →
  reads_as stored r →
  Streak.dayKey utcOffset later = Streak.dayKey utcOffset now →
  let gained := (Tracker.co2_saved_kg stored * Tracker.KG_TO_LB)%num in
  Num.isFinite (Tracker.co2_saved_kg stored) = true ∧
  actionCo2Lb r = gained ∧
  calculateTotalCo2 (history ++ [r]) = (calculateTotalCo2 history + gained)%num ∧
  calculateTodayCo2 utcOffset later (history ++ [r]) =
    (calculateTodayCo2 utcOffset later history + gained)%num.
Proof.
  intros Hpushed (Hkg & Hlb & Hts) Hday gained.
  assert (Num.isFinite (Tracker.co2_saved_kg stored) = true ∧
          Tracker.co2_saved_lb stored = gained ∧ Tracker.ts stored = now)
    as (Hfinite & Hpounds & Hnow).
  { destruct (logAction_cases agent database userId now actionType distance w)
      as [Hcase | (response & field & message & agent_meta & engine
                   & _ & _ & Hfinite & _ & _ & _ & _ & Hcase)];
      rewrite Hcase in Hpushed; simpl in Hpushed.
    - exfalso. apply (f_equal length) in Hpushed.
      rewrite length_app in Hpushed. simpl in Hpushed. lia.
    - apply app_inj_tail in Hpushed as [_ Hentry].
      injection Hentry as <-. by repeat split. }
  assert (actionCo2Lb r = gained) as Hr.
  { unfold actionCo2Lb. by rewrite Hlb. }
  split; [exact Hfinite|].
  split; [exact Hr|]. split.
  - by rewrite GamificationFacts.calculateTotalCo2_snoc, Hr.
  - unfold calculateTodayCo2, reduce.
    rewrite filter_app, filter_cons, filter_nil.
    case_decide as Hnot; [|exfalso; apply Hnot; by rewrite Hts, Hnow].
    by rewrite fold_left_app; simpl; rewrite Hr.
Qed.

End Counting.

Lemma a_saved_action_counts :
  let gained := (Fin 0.8 * Tracker.KG_TO_LB)%num in
  Num.isFinite (Fin 0.8) = true ∧
  Gamification.actionCo2Lb saved_record = gained ∧
  Gamification.calculateTotalCo2 (gap_history ++ [saved_record]) =
    (Gamification.calculateTotalCo2 gap_history + gained)%num ∧
  Stats.calculateTodayCo2 pacific (1700000000000 + hour) (gap_history ++ [saved_record]) =
    (Stats.calculateTodayCo2 pacific (1700000000000 + hour) gap_history + gained)%num.
Proof.
  apply (@saved_action_counts sample_runtime (λ _, ok finite_estimate) (λ _ _, true)
           "demo-user" 1700000000000 recycled Num.zero initial_world
           {| action := "recycled"; distance_mi := Num.zero;
              co2_saved_kg := Fin 0.8;
              co2_saved_lb := Fin (Qred (0.8 * 2.20462));
              message := VStr "Recycling saves energy.";
              agent_engine := VStr "unknown"; ts := 1700000000000 |}
           saved_record gap_history pacific (1700000000000 + hour)).
  - reflexivity.
  - repeat split.
  - reflexivity.
Defined.

End SubmissionFacts.

(** ** More on the directions *)

Module RouteFacts.
Import Json Eff Directions Shapes DirectionsFacts Samples MoreSamples.

Local Open Scope string_scope.

Section Lookup.

Context `{Runtime}.

Lemma sum_legs_numbers legs : ∀ meters acc,
  Forall2 leg_meters legs meters →
  sum_legs legs (VNum acc) = ok (VNum (fold_left Num.add meters acc)).
Proof.
  induction legs as [|leg legs IH]; intros meters acc Hlegs.
  - by apply Forall2_nil_inv_l in Hlegs as ->.
  - apply Forall2_cons_inv_l in Hlegs
      as (m & meters' & (distance & Hdistance & Hvalue) & Hlegs & ->).
    simpl. rewrite Hdistance. simpl. rewrite Hvalue. simpl.
    by apply IH.
Qed.

(** When the lookup succeeds, [fetchRoute] returns the length of the
    whole first route.  The lookup succeeds when a key is configured,
    the response has the status "OK" and a first route, that route has
    at least one leg, all its legs carry a number of meters, and it has
    an overview polyline, an object whose points may be anything.
    Then the distance is the sum of the meters of all the legs, divided
    by 1000 and multiplied by 0.621371; the polyline is the points of
    the overview polyline of that route, the duration is the duration
    of its first leg, and the other routes are not read.  One request
    is made.  (Without the overview polyline the lookup fails and the
    fallback is returned.) *)
Theorem fetchRoute_sums_the_legs
    (key : string) (net : Network) (origin destination : Coordinate)
    (mode : TravelMode) (requests : Requests)
    (data route leg overview points duration seconds : value)
    (others legs : list value) (meters : list number) :
  key ≠ "" →
  net (directions_url key origin destination mode) = Response (Some data) →
  get data "status" = ok (VStr "OK") →
  get data "routes" = ok (VArr (route :: others)) →
  get route "legs" = ok (VArr (leg :: legs)) →
  Forall2 leg_meters (leg :: legs) meters →
  get route "overview_polyline" = ok overview →
  get overview "points" = ok points →
  get leg "duration" = ok duration →
  get_optional duration "value" = ok seconds →
  fetchRoute key net origin destination mode requests =
  (ok {| distance_mi := (total meters / Num.of_Z 1000 * Fin 0.621371)%num;
         polyline := points;
         duration_s := seconds |},
   (requests ++ [directions_url key origin destination mode])%list).
Proof.
  intros Hkey Hnet Hstatus Hroutes Hlegs Hmeters Hoverview Hpoints Hduration Hseconds.
  unfold fetchRoute.
  assert (negb (truthy (VStr key)) = false) as ->.
  { simpl. by apply negb_false_iff, negb_true_iff, String.eqb_neq. }
  unfold fetch_json. rewrite Hnet.
  unfold try_catch, bind, effect, raise, ret, lift.
  unfold route_of_data.
  rewrite Hstatus. cbn -[sum_legs Num.div Num.mul get get_optional].
  rewrite Hroutes. cbn -[sum_legs Num.div Num.mul get get_optional].
  assert (get (VArr (route :: others)) "length" =
          ok (VNum (Num.of_Z (Z.of_nat (length (route :: others)))))) as ->
    by reflexivity.
  cbn -[sum_legs Num.div Num.mul get get_optional].
  assert (Qeq_bool (inject_Z (Z.of_nat (S (length others)))) 0 = false) as ->.
  { apply not_true_is_false. intros Hzero%Qeq_bool_eq.
    unfold Qeq in Hzero. cbn [Qnum Qden inject_Z] in Hzero. lia. }
  rewrite Hlegs. cbn -[sum_legs Num.div Num.mul get get_optional].
  rewrite (sum_legs_numbers (leg :: legs) meters Num.zero Hmeters).
  cbn -[Num.div Num.mul get get_optional].
  rewrite Hoverview. cbn -[Num.div Num.mul get get_optional].
  rewrite Hpoints. cbn -[Num.div Num.mul get get_optional].
  rewrite Hduration. cbn -[Num.div Num.mul get get_optional].
  rewrite Hseconds. reflexivity.
Qed.

End Lookup.

Lemma route_of_two_legs_summed :
  @fetchRoute sample_runtime "key" two_legs sample_origin sample_destination
    walking [] =
  (ok {| distance_mi :=
           (total [Num.of_Z 1000; Num.of_Z 609] / Num.of_Z 1000 * Fin 0.621371)%num;
         polyline := VStr "_p~iF~ps|U";
         duration_s := VNum (Num.of_Z 300) |},
   [@directions_url sample_runtime "key" sample_origin sample_destination walking]).
Proof.
  eapply (@fetchRoute_sums_the_legs sample_runtime "key" two_legs sample_origin
            sample_destination walking []);
    try reflexivity.
  - discriminate.
  - repeat constructor; eexists; split; reflexivity.
Defined.

Example route_without_overview_falls_back :
  (@fetchRoute sample_runtime "key" no_overview sample_origin sample_destination
     walking []).1 =
  ok (@straight_line sample_runtime sample_origin sample_destination).
Proof. reflexivity. Qed.

(** *** Polylines of whole points *)

Lemma group_length g : group g → (1 <= length g)%nat.
Proof. destruct 1; simpl; lia. Qed.

(** A group is read to its end, whatever follows it. *)
Lemma read_group_of_group g : group g → ∀ rest shift result,
  read_group (g ++ rest)%list shift result = ((read_group g shift result).1, rest).
Proof.
  induction 1 as [c Hc | c g Hc Hg IH]; intros rest shift result; simpl;
    unfold continues in Hc; rewrite Hc; [reflexivity|].
  rewrite IH. by destruct (read_group g _ _).
Qed.

Lemma read_group_of_group_alone g : group g → ∀ shift result,
  (read_group g shift result).2 = [].
Proof.
  intros Hg shift result.
  pose proof (read_group_of_group g Hg [] shift result) as Hread.
  rewrite app_nil_r in Hread. by rewrite Hread.
Qed.

(** The loop only ever appends to the coordinates. *)
Lemma decode_loop_appends fuel : ∀ units lat lng coordinates decoded,
  decode_loop fuel units lat lng coordinates = Some decoded →
  ∃ more, decoded = (coordinates ++ more)%list.
Proof.
  induction fuel as [|fuel IH]; intros units lat lng coordinates decoded.
  - destruct units; simpl; [|discriminate].
    intros [= <-]. exists []. by rewrite app_nil_r.
  - destruct units as [|c rest].
    { simpl. intros [= <-]. exists []. by rewrite app_nil_r. }
    cbn [decode_loop].
    destruct (read_group (c :: rest) 0 0) as [result1 units1].
    destruct (read_group units1 0 0) as [result2 units2].
    intros (more & ->)%IH. rewrite <- app_assoc. eauto.
Qed.

Lemma decode_loop_of_whole units : whole units → ∀ rest lat lng coordinates,
  ∃ decoded more,
    (∀ fuel, (length units <= fuel)%nat →
             decode_loop fuel units lat lng coordinates = Some decoded) ∧
    (∀ fuel, (length (units ++ rest)%list <= fuel)%nat →
             decode_loop fuel (units ++ rest)%list lat lng coordinates =
             Some (decoded ++ more)%list).
Proof.
  induction 1 as [|g1 g2 units Hg1 Hg2 Hunits IH]; intros rest lat lng coordinates.
  - destruct (decode_loop_enough (length rest) rest lat lng coordinates)
      as (decoded & Hdecoded & _); [lia|].
    destruct (decode_loop_appends _ _ _ _ _ _ (Hdecoded _ (le_n _))) as (more & ->).
    exists coordinates, more. split; [by intros [|fuel]|]. exact Hdecoded.
  - pose proof (group_length g1 Hg1) as Hlen1.
    set (result1 := (read_group g1 0 0).1).
    set (result2 := (read_group g2 0 0).1).
    set (lat' := lat + delta result1). set (lng' := lng + delta result2).
    destruct (IH rest lat' lng'
                (coordinates ++
                 [ {| latitude := (Num.of_Z lat' / Num.of_Z 100000)%num;
                      longitude := (Num.of_Z lng' / Num.of_Z 100000)%num |} ])%list)
      as (decoded & more & Halone & Hfollowed).
    exists decoded, more.
    assert (∀ tail fuel,
              (length ((g1 ++ g2 ++ units) ++ tail)%list <= fuel)%nat →
              decode_loop fuel ((g1 ++ g2 ++ units) ++ tail)%list lat lng coordinates =
              decode_loop (pred fuel) (units ++ tail)%list lat' lng'
                (coordinates ++
                 [ {| latitude := (Num.of_Z lat' / Num.of_Z 100000)%num;
                      longitude := (Num.of_Z lng' / Num.of_Z 100000)%num |} ])%list)
      as Hturn.
    { intros tail fuel Hfuel.
      rewrite !length_app in Hfuel.
      destruct fuel as [|fuel]; [lia|].
      destruct g1 as [|c g1']; [simpl in Hlen1; lia|].
      rewrite <- !app_assoc. cbn [app decode_loop].
      change (c :: g1' ++ g2 ++ units ++ tail)%list
        with ((c :: g1') ++ g2 ++ units ++ tail)%list.
      rewrite (read_group_of_group _ Hg1), (read_group_of_group _ Hg2).
      reflexivity. }
    split.
    + intros fuel Hfuel.
      specialize (Hturn [] fuel). rewrite !app_nil_r in Hturn.
      rewrite Hturn by exact Hfuel. apply Halone.
      rewrite !length_app in Hfuel. lia.
    + intros fuel Hfuel. rewrite Hturn by exact Hfuel. apply Hfollowed.
      rewrite !length_app in *. lia.
Qed.

Lemma code_units_app s t : code_units (s ++ t) = (code_units s ++ code_units t)%list.
Proof.
  unfold code_units. rewrite <- map_app. f_equal.
  induction s; simpl; [reflexivity | by f_equal].
Qed.

Lemma length_string_app s t :
  String.length (s ++ t) = (String.length s + String.length t)%nat.
Proof. induction s; simpl; [reflexivity | by f_equal]. Qed.

(** The points of a polyline do not depend on what comes after them:
    when a string is a polyline of whole points, the decoding of that
    string followed by any other string begins with the points of the
    string itself. *)
Theorem decodePolyline_keeps_the_points_before (encoded following : string) :
  whole (code_units encoded) →
  ∃ points more,
    decodePolyline encoded = Some points ∧
    decodePolyline (encoded ++ following) = Some (points ++ more)%list.
Proof.
  intros Hwhole. unfold decodePolyline, decode_units.
  rewrite code_units_app, length_string_app.
  destruct (decode_loop_of_whole _ Hwhole (code_units following) 0 0 [])
    as (decoded & more & Halone & Hfollowed).
  rewrite <- !length_code_units.
  destruct (code_units encoded) as [|c units] eqn:Hencoded.
  - exists [].
    destruct (decode_loop_enough (length (code_units following))
                (code_units following) 0 0 []) as (all & Hall & _); [lia|].
    exists all. split; [reflexivity|]. simpl.
    destruct (code_units following); [|by apply Hall].
    by rewrite <- (Hall 0%nat (le_n _)).
  - exists decoded, more. split; [by apply Halone|].
    simpl app. cbv iota. apply Hfollowed. rewrite length_app. simpl. lia.
Qed.

Example one_whole_point : whole (code_units "_p~iF~ps|U").
Proof.
  change (code_units "_p~iF~ps|U")
    with ([95; 112; 126; 105; 70] ++ [126; 112; 115; 124; 85] ++ [])%list.
  apply whole_point; [| |constructor];
    repeat (first [ by apply group_last | apply group_more; [reflexivity|] ]).
Qed.

Lemma first_point_kept :
  ∃ points more,
    decodePolyline "_p~iF~ps|U" = Some points ∧
    decodePolyline ("_p~iF~ps|U" ++ "_ulLnnqC") = Some (points ++ more)%list.
Proof.
  apply decodePolyline_keeps_the_points_before.
  change (code_units "_p~iF~ps|U")
    with ([95; 112; 126; 105; 70] ++ [126; 112; 115; 124; 85] ++ [])%list.
  apply whole_point; [| |constructor];
    repeat (first [ by apply group_last | apply group_more; [reflexivity|] ]).
Defined.

End RouteFacts.

(** ** The configuration and the agent's URL *)

Module ConfigFacts.
Import Json Eff Config.

Local Open Scope string_scope.

(** The message about the configuration is missing exactly when the
    configured URL is valid: [getConfigErrorMessage] returns [null] if
    and only if [isAgentUrlValid] returns [true]. *)
Theorem getConfigErrorMessage_none_iff_valid (AGENT_URL : string) :
  getConfigErrorMessage AGENT_URL = None ↔ isAgentUrlValid AGENT_URL = true.
Proof.
  unfold getConfigErrorMessage, isAgentUrlValid.
  destruct AGENT_URL as [|c s]; [by split|].
  change (truthy (VStr (String c s))) with true. cbn [negb].
  destruct (startsWith (String c s) "https://"),
           (startsWith (String c s) "http://"); by split.
Qed.

Example messages_of_configurations :
  getConfigErrorMessage "https://eco.example" = None ∧
  getConfigErrorMessage "" =
    Some "Agent URL not configured. Please set EXPO_PUBLIC_AGENT_URL in .env and restart Expo." ∧
  getConfigErrorMessage "eco.example" =
    Some ("Invalid agent URL: " ++ quote ++ "eco.example" ++ quote ++
          ". Must start with https:// or http://").
Proof. repeat split. Qed.

Lemma strip_trailing_slashes_run (s : string) :
  ∃ n, s = strip_trailing_slashes s ++ slashes n.
Proof.
  induction s as [|c rest [n IH]]; [by exists 0%nat|].
  cbn [strip_trailing_slashes].
  destruct (strip_trailing_slashes rest) as [|d kept] eqn:Hrest.
  - simpl in IH. subst rest.
    destruct (Ascii.eqb c "/") eqn:Hc.
    + apply Ascii.eqb_eq in Hc as ->. by exists (S n).
    + by exists n.
  - exists n. simpl. by rewrite IH at 1.
Qed.

Lemma strip_trailing_slashes_end (s : string) :
  ends_with_slash (strip_trailing_slashes s) = false.
Proof.
  induction s as [|c rest IH]; [reflexivity|].
  cbn [strip_trailing_slashes].
  destruct (strip_trailing_slashes rest) as [|d kept] eqn:Hrest.
  - destruct (Ascii.eqb c "/") eqn:Hc; [reflexivity | exact Hc].
  - exact IH.
Qed.

Lemma valid_is_truthy (AGENT_URL : string) :
  isAgentUrlValid AGENT_URL = true → truthy (VStr AGENT_URL) = true.
Proof. by destruct AGENT_URL. Qed.

(** With a valid configured URL, [getAgentUrl] does not read the
    database and returns the configured URL without its trailing
    slashes: the URL it returns does not end with a slash, and the
    configured URL is that URL followed by slashes only. *)
Theorem getAgentUrl_returns_valid_configuration
    (AGENT_URL : string) (database : ConfigFetched) (reads : list string) :
  isAgentUrlValid AGENT_URL = true →
  ∃ url n,
    getAgentUrl AGENT_URL database reads = (ok url, reads) ∧
    AGENT_URL = url ++ slashes n ∧
    ends_with_slash url = false.
Proof.
  intros Hvalid. unfold getAgentUrl.
  rewrite (valid_is_truthy _ Hvalid).
  unfold isAgentUrlValid in Hvalid. rewrite Hvalid. cbn [andb].
  destruct (strip_trailing_slashes_run AGENT_URL) as [n Hn].
  exists (strip_trailing_slashes AGENT_URL), n.
  split; [reflexivity|]. split; [exact Hn | apply strip_trailing_slashes_end].
Qed.

Lemma agent_url_without_trailing_slashes :
  ∃ url n,
    getAgentUrl "https://eco.example//" (ConfigRejects VNull) [] = (ok url, []) ∧
    "https://eco.example//" = url ++ slashes n ∧
    ends_with_slash url = false.
Proof.
  apply (getAgentUrl_returns_valid_configuration "https://eco.example//").
  reflexivity.
Defined.

(** Without a valid configured URL, [getAgentUrl] reads
    [/config/agent_url] of the database once; it returns a URL exactly
    when the database holds a string there, which it returns without
    its trailing slashes, and it throws its own error in every other
    case, whatever went wrong with the database. *)
Theorem getAgentUrl_falls_back_to_database
    (AGENT_URL : string) (database : ConfigFetched) (reads : list string) :
  isAgentUrlValid AGENT_URL = false →
  (getAgentUrl AGENT_URL database reads).2 = (reads ++ ["/config/agent_url"])%list ∧
  match database with
  | ConfigSnapshot (VStr fbUrl) =>
      (getAgentUrl AGENT_URL database reads).1 = ok (strip_trailing_slashes fbUrl)
  | _ =>
      ∃ msg, (getAgentUrl AGENT_URL database reads).1 = throw (Error msg)
  end.
Proof.
  intros Hvalid. unfold getAgentUrl.
  unfold isAgentUrlValid in Hvalid. rewrite Hvalid, andb_false_r.
  destruct database as [reason | []]; cbn; split; eauto.
Qed.

Lemma agent_url_of_the_database :
  (getAgentUrl "" (ConfigSnapshot (VStr "http://10.0.0.2:8000/")) []).2 =
    ["/config/agent_url"] ∧
  (getAgentUrl "" (ConfigSnapshot (VStr "http://10.0.0.2:8000/")) []).1 =
    ok "http://10.0.0.2:8000".
Proof.
  apply (getAgentUrl_falls_back_to_database ""
           (ConfigSnapshot (VStr "http://10.0.0.2:8000/")) []).
  reflexivity.
Defined.

Example agent_url_edge_cases :
  (getAgentUrl "https://" (ConfigRejects VNull) []).1 = ok "https:" ∧
  (∃ msg, (getAgentUrl "ftp://eco.example" (ConfigSnapshot (VNum (Num.of_Z 1))) []).1
          = throw (Error msg)) ∧
  (getAgentUrl "" (ConfigSnapshot (VStr "///")) []).1 = ok "".
Proof. repeat split. by eexists. Qed.

End ConfigFacts.

(** ** The row of the history on the tracker screen *)

Module HistoryRowFacts.
Import Gamification Stats Samples.

Lemma Qeq_bool_Qred_mul_zero (q : Q) :
  Qeq_bool (Qred (q * 2.20462)) 0 = Qeq_bool q 0.
Proof.
  apply eq_true_iff_eq. rewrite !Qeq_bool_iff, Qred_correct.
  split; intros Hq.
  - assert (q == q * 2.20462 / 2.20462)%Q as -> by (field; discriminate).
    rewrite Hq. reflexivity.
  - rewrite Hq. reflexivity.
Qed.

(** The pounds that a row of the history shows are the pounds that the
    statistics count for that record, [actionCo2Lb], unless the pounds
    field of the record is NaN: the row then shows 0. *)
Theorem history_row_shows_counted_pounds (a : EcoActionRecord) :
  (co2_saved_lb a ≠ Some NaN → NumOps.same (row_co2_lb a) (actionCo2Lb a)) ∧
  (co2_saved_lb a = Some NaN → row_co2_lb a = Num.of_Z 0).
Proof.
  split; [|intros Hnan; unfold row_co2_lb; by rewrite Hnan].
  intros Hlb. unfold row_co2_lb, actionCo2Lb.
  destruct (co2_saved_lb a) as [[| s | q] |]; [done | done | |].
  - cbn [Num.truthy]. destruct (Qeq_bool q 0) eqn:Hq; cbn [negb NumOps.same].
    + apply Qeq_bool_eq in Hq. symmetry. exact Hq.
    + reflexivity.
  - destruct (co2_saved_kg a) as [[| s | q] |]; try done.
    unfold kg_or_zero. cbn [Num.truthy Num.mul Tracker.KG_TO_LB KG_TO_LB].
    rewrite Qeq_bool_Qred_mul_zero.
    destruct (Qeq_bool q 0) eqn:Hq; cbn [negb NumOps.same]; reflexivity.
Qed.

Lemma history_row_of_legacy_record :
  NumOps.same (row_co2_lb legacy_record) (actionCo2Lb legacy_record).
Proof. apply (history_row_shows_counted_pounds legacy_record). discriminate. Defined.

Example history_row_of_nan_pounds :
  let a := with_kg (Some (Num.of_Z 1))
             {| action := "recycled"; distance_km := None; distance_mi := None;
                co2_saved_kg := None; co2_saved_lb := Some NaN;
                message := ""; ts := 0 |} in
  row_co2_lb a = Num.of_Z 0 ∧ actionCo2Lb a = NaN.
Proof. split; reflexivity. Qed.

End HistoryRowFacts.

(** ** The form of the vegetarian meal *)

Module VegetarianFacts.
Import Json VegetarianModal.

Local Open Scope string_scope.

Lemma portion_accepted_positive (p : number) :
  negb (Num.truthy p) || (p <=? Num.of_Z 0)%num = false →
  (p >? Num.of_Z 0)%num = true.
Proof.
  destruct p as [| [] | q]; try done.
  unfold Num.leb, NumOps.gtb, NumOps.ltb, Num.of_Z. cbn [Num.truthy Num.geb].
  intros [_ Hle]%orb_false_elim. by rewrite Hle.
Qed.

(** [handleSubmit] either shows one alert, submits nothing and keeps
    the form, or it submits once, shows no alert and clears the form;
    what it submits is the selected meat, which is not empty, with the
    portion of the form, which is a number greater than 0. *)
Theorem handleSubmit_submits_positive_portions
    (parseFloat : string → number) (form : Form) (seen : Outcome) :
  let after := handleSubmit parseFloat form seen in
  (after.1 = form ∧ submitted after.2 = submitted seen ∧
   ∃ shown, alerts after.2 = (alerts seen ++ [shown])%list) ∨
  (∃ p, after.1 = empty_form ∧ alerts after.2 = alerts seen ∧
        submitted after.2 = (submitted seen ++ [(selectedMeat form, p)])%list ∧
        selectedMeat form ≠ "" ∧
        portion_of parseFloat form = Some p ∧
        (p >? Num.of_Z 0)%num = true).
Proof.
  unfold handleSubmit.
  destruct (truthy (VStr (selectedMeat form))) eqn:Hmeat; cbn [negb];
    [|left; eauto].
  destruct (portion_of parseFloat form) as [p|] eqn:Hportion; [|left; eauto].
  cbn [portion_refused].
  destruct (negb (Num.truthy p) || (p <=? Num.of_Z 0)%num) eqn:Hp; [left; eauto|].
  right. exists p. repeat split.
  - intros Hempty. by rewrite Hempty in Hmeat.
  - by apply portion_accepted_positive.
Qed.

Example portions_submitted_or_not :
  let parse := λ s : string, if String.eqb s "-5" then Fin (-5) else Infinity false in
  submitted (handleSubmit parse (mkForm "beef" (Some (Num.of_Z 150)) "")
               (mkOutcome [] [])).2 = [("beef", Num.of_Z 150)] ∧
  submitted (handleSubmit parse (mkForm "beef" (Some (Num.of_Z 150)) "-5")
               (mkOutcome [] [])).2 = [] ∧
  submitted (handleSubmit parse (mkForm "beef" None "Infinity")
               (mkOutcome [] [])).2 = [("beef", Infinity false)].
Proof. repeat split. Qed.

End VegetarianFacts.

(** ** The leaderboard *)

Module LeaderboardFacts.
Import Json Gamification Leaderboard Samples MoreSamples.

Local Open Scope string_scope.

(** The entry of the current user, once normalized. *)
Lemma asLb_currentUserEntry (t : number) :
  asLb (currentUserEntry t) = if Num.isFinite t then t else Num.of_Z 0.
Proof. reflexivity. Qed.

Lemma normalized_currentUserEntry (t : number) :
  normalized (currentUserEntry t) = currentUserEntry (asLb (currentUserEntry t)).
Proof. reflexivity. Qed.

Lemma asLb_finite (e : value) : Num.isFinite (asLb e) = true.
Proof.
  unfold asLb. cbv zeta.
  match goal with
  | |- context [if Num.isFinite ?lb then _ else _] =>
      destruct (Num.isFinite lb) eqn:Hlb
  end; [exact Hlb | reflexivity].
Qed.

Lemma userTotalKg_of_fields (actions : list EcoActionRecord) :
  userTotalKg actions =
  fold_left (λ total kg, match kg with
                         | Some kg => (total + kg)%num
                         | None => total
                         end)
            (map co2_saved_kg actions) (Num.of_Z 0).
Proof.
  unfold userTotalKg. generalize (Num.of_Z 0).
  induction actions as [|a actions IH]; intros total; [reflexivity|].
  cbn [fold_left map]. apply IH.
Qed.

(** The leaderboard reads the kilograms only: two histories whose
    records carry the same kilograms fields, in the same order, give
    the same leaderboard, whatever their pounds fields and their other
    fields are.  (The statistics read the pounds field first, so that
    the two screens can show different totals for one history.) *)
Theorem leaderboard_reads_kilograms_only (actions actions' : list EcoActionRecord) :
  map co2_saved_kg actions = map co2_saved_kg actions' →
  loadLeaderboard (Stats.Snapshot actions) = loadLeaderboard (Stats.Snapshot actions').
Proof.
  intros Hkg. unfold loadLeaderboard.
  by rewrite !userTotalKg_of_fields, Hkg.
Qed.

Lemma leaderboard_of_two_kilograms :
  loadLeaderboard (Stats.Snapshot [legacy_record]) =
  loadLeaderboard (Stats.Snapshot [with_kg (Some (Num.of_Z 2)) pounds_only_record]).
Proof.
  apply leaderboard_reads_kilograms_only. reflexivity.
Defined.

Example statistics_read_the_pounds_first :
  calculateTotalCo2 [legacy_record] = Fin (Qred (2 * 2.20462)) ∧
  calculateTotalCo2 [with_kg (Some (Num.of_Z 2)) pounds_only_record] = Fin (Qred 2.25).
Proof. split; reflexivity. Qed.

(** The leaderboard holds the entry "You" and the entry "Bob", each
    with a finite total: the total of "You" is the converted sum of the
    kilograms, or 0 when that is not a finite number.  "You" comes
    first exactly when that total is at least the 12 lb of "Bob"; with
    equal totals "You" stays first. *)
Theorem leaderboard_ranks_you_from_twelve (actions : list EcoActionRecord) :
  let userTotalLb := (userTotalKg actions * Fin 2.20462)%num in
  let bob := VObj [ ("name", VStr "Bob");
                    ("total_co2_saved_lb", VNum (Num.of_Z 12));
                    ("isDemoUser", VBool true) ] in
  ∃ total : Q,
    (if Num.isFinite userTotalLb then userTotalLb else Num.of_Z 0) = Fin total ∧
    loadLeaderboard (Stats.Snapshot actions) =
      Some (if Qle_bool 12 total
            then [currentUserEntry (Fin total); bob]
            else [bob; currentUserEntry (Fin total)]).
Proof.
  intros userTotalLb bob. unfold loadLeaderboard. fold userTotalLb.
  cbn [map DEMO_USERS]. rewrite normalized_currentUserEntry, asLb_currentUserEntry.
  assert (∃ total, (if Num.isFinite userTotalLb then userTotalLb else Num.of_Z 0)
                   = Fin total) as [total Htotal].
  { destruct userTotalLb; cbn [Num.isFinite]; eauto. }
  rewrite Htotal. exists total. split; [reflexivity|].
  change (normalized (VObj [ ("name", VStr "Bob");
                             ("total_co2_saved_lb", VNum (Num.of_Z 12));
                             ("isDemoUser", VBool true) ])) with bob.
  cbn [ArraySort.sort_by foldr ArraySort.insert_by].
  assert (by_total_desc (currentUserEntry (Fin total)) bob ↔ Qle_bool 12 total = true)
    as Hrank.
  { unfold by_total_desc.
    change (asLb bob) with (Num.of_Z 12).
    change (asLb (currentUserEntry (Fin total))) with (Fin total).
    unfold Num.sub, Num.leb, Num.of_Z. cbn [Num.opp Num.add Num.geb].
    rewrite !Qle_bool_iff, !Qred_correct. change (inject_Z 12) with 12%Q.
    change (inject_Z 0) with 0%Q. split; intros; lra. }
  destruct (decide (by_total_desc (currentUserEntry (Fin total)) bob)) as [Hyes|Hno].
  - apply Hrank in Hyes. by rewrite Hyes.
  - destruct (Qle_bool 12 total) eqn:Hle; [|reflexivity].
    exfalso. apply Hno, Hrank. reflexivity.
Qed.

Example leaderboard_with_equal_totals :
  let tie := with_kg (Some (Fin (12 / 2.20462))) legacy_record in
  loadLeaderboard (Stats.Snapshot [tie]) =
    Some [ currentUserEntry (Num.of_Z 12); normalized (hd VNull DEMO_USERS) ].
Proof. reflexivity. Qed.

Example leaderboard_ignores_the_pounds_field :
  loadLeaderboard (Stats.Snapshot [pounds_and_kg_disagree]) =
    Some [ currentUserEntry (Fin (Qred (100 * 2.20462))); normalized (hd VNull DEMO_USERS) ] ∧
  calculateTotalCo2 [pounds_and_kg_disagree] = Fin (Qred 1.5).
Proof. split; reflexivity. Qed.

End LeaderboardFacts.

(** ** The recorded track *)

Module GeoFacts.
Import Json Eff Geo Samples TrackSamples.

Section Track.

Context `{Runtime}.

Lemma spaced_snoc (points : list TrackPoint) (p : TrackPoint) :
  spaced points →
  (∀ lastPoint, last points = Some lastPoint →
                (apart lastPoint p <? JITTER_THRESHOLD_M)%num = false) →
  spaced (points ++ [p]).
Proof.
  induction points as [|q [|q' rest] IH]; intros Hspaced Hlast.
  - exact I.
  - split; [|exact I]. by apply Hlast.
  - destruct Hspaced as [Hq Hrest]. split; [exact Hq|].
    apply IH; [exact Hrest|]. exact Hlast.
Qed.

Lemma point_of_good (location : LocationObject) :
  (accuracy (point_of location) >? ACCURACY_THRESHOLD_M)%num = false →
  too_fast (point_of location) = false →
  good (point_of location).
Proof.
  unfold good, too_fast. cbn [accuracy speed point_of].
  intros Haccuracy Hspeed.
  assert (∀ a, Num.truthy a = true →
               (a >? ACCURACY_THRESHOLD_M)%num = false →
               (a <=? ACCURACY_THRESHOLD_M)%num = true) as Hle.
  { intros [| [] | q]; try done.
    unfold NumOps.gtb, NumOps.ltb, Num.leb, ACCURACY_THRESHOLD_M, Num.of_Z.
    cbn [Num.geb]. intros _. by destruct (Qle_bool q (inject_Z 50)). }
  destruct (coords_accuracy location) as [a|]; [|done].
  destruct (Num.truthy a) eqn:Ha; [|done].
  split; [by apply Hle|]. split; [exact Ha|].
  intros s Hs. by rewrite Hs in Hspeed.
Qed.

Lemma task_keeps_quality (input : TaskInput) (points : list TrackPoint) :
  Forall good points ∧ spaced points →
  Forall good (task input points) ∧ spaced (task input points).
Proof.
  intros [Hgood Hspaced]. unfold task.
  destruct (task_error input); [done|].
  destruct (locations input) as [[|location others]|]; [done| |done].
  cbv zeta.
  destruct (accuracy (point_of location) >? ACCURACY_THRESHOLD_M)%num eqn:Haccuracy;
    [done|].
  destruct (too_fast (point_of location)) eqn:Hspeed; [done|].
  pose proof (point_of_good location Haccuracy Hspeed) as Hpoint.
  destruct (last points) as [lastPoint|] eqn:Hlast.
  - destruct (apart lastPoint (point_of location) <? JITTER_THRESHOLD_M)%num eqn:Hjitter;
      [done|].
    split; [apply Forall_app; split; [exact Hgood | by apply Forall_singleton]|].
    apply spaced_snoc; [exact Hspaced|]. intros q Hq.
    rewrite Hlast in Hq. by injection Hq as <-.
  - split; [apply Forall_app; split; [exact Hgood | by apply Forall_singleton]|].
    apply spaced_snoc; [exact Hspaced|]. intros q Hq. by rewrite Hlast in Hq.
Qed.

Lemma task_extends (input : TaskInput) (points : list TrackPoint) :
  task input points = points ∨
  ∃ location others,
    locations input = Some (location :: others) ∧
    task input points = (points ++ [point_of location])%list.
Proof.
  unfold task.
  destruct (task_error input); [by left|].
  destruct (locations input) as [[|location others]|]; [by left| |by left].
  cbv zeta.
  destruct (accuracy (point_of location) >? ACCURACY_THRESHOLD_M)%num; [by left|].
  destruct (too_fast (point_of location)); [by left|].
  destruct (last points) as [lastPoint|].
  - destruct (apart lastPoint (point_of location) <? JITTER_THRESHOLD_M)%num;
      [by left | right; eauto].
  - right; eauto.
Qed.

Lemma run_task_keeps_quality (inputs : list TaskInput) : ∀ points,
  Forall good points ∧ spaced points →
  Forall good (run_task inputs points) ∧ spaced (run_task inputs points).
Proof.
  induction inputs as [|input inputs IH]; intros points Hpoints; [exact Hpoints|].
  cbn [run_task fold_left]. apply IH. by apply task_keeps_quality.
Qed.

(** Whatever the operating system reports after the points were reset,
    the points that the background task records all pass its filters:
    each has an accuracy of at most 50 m that is not 0, none has a
    speed above 12 m/s, and no two neighbours are measured less than
    3 m apart. *)
Theorem recorded_points_pass_the_filters (inputs : list TaskInput) :
  Forall good (run_task inputs []) ∧ spaced (run_task inputs []).
Proof.
  unfold run_task.
  assert (Forall good [] ∧ spaced []) as Hstart by (split; constructor).
  revert Hstart. generalize (@nil TrackPoint).
  induction inputs as [|input inputs IH]; intros points Hpoints; [exact Hpoints|].
  cbn [fold_left]. apply IH. by apply task_keeps_quality.
Qed.

(** The task only ever appends to the track: the points recorded after
    more inputs begin with the points recorded before, and a run of the
    task adds at most one point, which is built from the first location
    of its input. *)
Theorem recorded_points_only_grow (inputs : list TaskInput) (points : list TrackPoint) :
  ∃ more,
    run_task inputs points = (points ++ more)%list ∧
    (length more <= length inputs)%nat ∧
    ∀ p, p ∈ more →
      ∃ input location others,
        input ∈ inputs ∧ locations input = Some (location :: others) ∧
        p = point_of location.
Proof.
  revert points. induction inputs as [|input inputs IH]; intros points.
  - exists []. rewrite app_nil_r. repeat split; [done|]. by intros p ?%elem_of_nil.
  - cbn [run_task fold_left].
    destruct (IH (task input points)) as (more & Hrun & Hlength & Hmore).
    unfold run_task in Hrun. rewrite Hrun.
    destruct (task_extends input points) as [-> | (location & others & Hlocation & ->)].
    + exists more. split; [reflexivity|]. split; [simpl; lia|].
      intros p (i & l & o & Hi & Hl & ->)%Hmore.
      exists i, l, o. split; [by apply elem_of_cons; right | by split].
    + exists (point_of location :: more). rewrite <- app_assoc.
      split; [reflexivity|]. split; [simpl; lia|].
      intros p [-> | (i & l & o & Hi & Hl & ->)%Hmore]%elem_of_cons.
      * exists input, location, others. split; [by apply elem_of_cons; left | by split].
      * exists i, l, o. split; [by apply elem_of_cons; right | by split].
Qed.

Lemma add_finite (x y : number) (q : Q) :
  (x + y)%num = Fin q → ∃ a b, x = Fin a ∧ y = Fin b ∧ (q == a + b)%Q.
Proof.
  destruct x as [| s | a], y as [| s' | b]; cbn [Num.add]; try done.
  - by destruct (Bool.eqb s s').
  - intros [= <-]. exists a, b. repeat split. apply Qred_correct.
Qed.

Lemma sum_steps_bound (rest : list TrackPoint) :
  ∀ (prev : TrackPoint) (totalDistance : number) (q : Q),
    spaced (prev :: rest) →
    sum_steps prev rest totalDistance = Fin q →
    ∃ a, totalDistance = Fin a ∧
         (a + 3 * inject_Z (Z.of_nat (length rest)) <= q)%Q.
Proof.
  induction rest as [|curr rest IH]; intros prev totalDistance q Hspaced Hsum.
  - exists q. split; [exact Hsum|].
    change (inject_Z (Z.of_nat (length (@nil TrackPoint)))) with 0%Q. lra.
  - destruct Hspaced as [Hstep Hspaced]. cbn [sum_steps] in Hsum.
    destruct (IH curr _ q Hspaced Hsum) as (a' & Hadd & Hbound).
    destruct (add_finite _ _ _ Hadd) as (a & d & -> & Hd & Ha').
    exists a. split; [reflexivity|].
    rewrite Hd in Hstep.
    unfold NumOps.ltb, JITTER_THRESHOLD_M, Num.of_Z in Hstep.
    apply negb_false_iff, Qle_bool_iff in Hstep. change (inject_Z 3) with 3%Q in Hstep.
    cbn [length]. rewrite Nat2Z.inj_succ, <- Z.add_1_r, inject_Z_plus.
    change (inject_Z 1) with 1%Q.
    set (n := inject_Z (Z.of_nat (length rest))) in *. clearbody n. lra.
Qed.

(** A track that the task recorded measures at least 3 m for each step:
    when the total distance of the recorded points is a finite number,
    it is at least 3 m times the number of points after the first. *)
Theorem recorded_track_measures_its_steps (inputs : list TaskInput) (q : Q) :
  totalDistanceMeters (run_task inputs []) = Fin q →
  (3 * inject_Z (Z.of_nat (length (run_task inputs []) - 1)) <= q)%Q.
Proof.
  destruct (run_task_keeps_quality inputs []) as [_ Hspaced];
    [split; constructor|].
  destruct (run_task inputs []) as [|first [|second rest]] eqn:Hpoints.
  - intros [= <-]. by vm_compute.
  - intros [= <-]. by vm_compute.
  - unfold totalDistanceMeters. intros Hsum.
    destruct (sum_steps_bound _ _ _ _ Hspaced Hsum) as (a & [= <-] & Hbound).
    replace (length (first :: second :: rest) - 1)%nat with (length (second :: rest))
      by (simpl; lia).
    change (inject_Z 0) with 0%Q in Hbound. lra.
Qed.

End Track.

Lemma track_to_the_north_measured :
  ∃ q : Q,
    @totalDistanceMeters sample_runtime (@run_task sample_runtime northward []) = Fin q ∧
    (3 * inject_Z (Z.of_nat (length (@run_task sample_runtime northward []) - 1)) <= q)%Q.
Proof.
  eexists. split; [vm_compute; reflexivity|].
  apply (@recorded_track_measures_its_steps sample_runtime).
  vm_compute. reflexivity.
Defined.

Example track_to_the_north_has_two_points :
  map latitude (@run_task sample_runtime northward []) = [Num.of_Z 37; Num.of_Z 38].
Proof. reflexivity. Qed.

Example points_dropped_and_kept :
  let here accuracy speed :=
    {| coords_latitude := Fin 37.7749; coords_longitude := Fin (-122.4194);
       coords_accuracy := accuracy; coords_speed := speed;
       location_timestamp := Num.of_Z 1700000000000 |} in
  let reported location := {| task_error := false; locations := Some [location] |} in
  length (@run_task sample_runtime
            [ reported (here (Some (Num.of_Z 10)) None);
              reported (here (Some (Num.of_Z 0)) None);
              reported (here None (Some (Num.of_Z 1)));
              reported (here (Some (Num.of_Z 10)) (Some (Num.of_Z 13)));
              reported (here (Some (Num.of_Z 10)) (Some (Num.of_Z 1))) ] []) = 1%nat.
Proof. reflexivity. Qed.

(** *** Starting and stopping *)

(** [startTracking] does not throw, and it returns the tracking flag as
    it leaves it.  It returns [true] exactly when the foreground
    permission is granted, the request for the background permission
    does not fail (whatever its answer is) and the location updates
    start; the track is empty then.  When the foreground permission is
    not granted, the points recorded before are kept and nothing else
    is asked of the operating system. *)
Theorem startTracking_returns_the_flag (os : System) (w : World) :
  ∃ started : bool,
    (startTracking os w).1 = ok started ∧
    isTracking (startTracking os w).2 = started ∧
    (started = true ↔
       foreground os = Resolves "granted"%string ∧
       background os ≠ Rejects ∧
       start_updates os = Resolves tt) ∧
    (started = true → trackingPoints (startTracking os w).2 = []) ∧
    (foreground os ≠ Resolves "granted"%string →
       trackingPoints (startTracking os w).2 = trackingPoints w ∧
       calls (startTracking os w).2 = (calls w ++ [RequestForeground])%list).
Proof.
  unfold startTracking, requestPermissions, try_catch, bind, call, effect, raise,
    ret, set_isTracking, set_trackingPoints.
  destruct os as [fg bg start registered stop]. cbn [foreground background start_updates].
  destruct fg as [|status]; cbn.
  - exists false. repeat split; try done. by intros (? & _).
  - destruct (String.eqb status "granted") eqn:Hstatus; cbn.
    + apply String.eqb_eq in Hstatus as ->.
      destruct bg as [|bstatus], start as [|[]]; cbn;
        first [ exists true; by repeat split
              | exists false; repeat split; try done; by intros (_ & ? & ?) ].
    + exists false. repeat split; try done.
      intros ([= ->] & _). by rewrite String.eqb_refl in Hstatus.
Qed.

(** [stopTracking] does not throw.  It clears the tracking flag, unless
    a call to the operating system fails: the flag is then left as it
    was.  It stops the location updates only when the task is
    registered. *)
Theorem stopTracking_clears_the_flag (os : System) (w : World) :
  (stopTracking os w).1 = ok tt ∧
  trackingPoints (stopTracking os w).2 = trackingPoints w ∧
  match task_registered os with
  | Rejects =>
      isTracking (stopTracking os w).2 = isTracking w ∧
      calls (stopTracking os w).2 = (calls w ++ [IsTaskRegistered])%list
  | Resolves false =>
      isTracking (stopTracking os w).2 = false ∧
      calls (stopTracking os w).2 = (calls w ++ [IsTaskRegistered])%list
  | Resolves true =>
      isTracking (stopTracking os w).2 =
        match stop_updates os with Rejects => isTracking w | Resolves _ => false end ∧
      calls (stopTracking os w).2 =
        (calls w ++ [IsTaskRegistered; StopLocationUpdates])%list
  end.
Proof.
  unfold stopTracking, try_catch, bind, call, effect, raise, ret, set_isTracking.
  destruct os as [fg bg start registered stop]. cbn [task_registered stop_updates].
  destruct registered as [|[]]; cbn; [by repeat split| |by repeat split].
  destruct stop as [|[]]; cbn; rewrite <- ?app_assoc; by repeat split.
Qed.

End GeoFacts.
